(** * usb-flash.py: flashing a firmware image through the Nordic bootloader

  A shallow embedding of [usb-flasher/usb-flash.py].  The script is a
  straight-line program over the PyUSB transport: it pads the image,
  asks a running application firmware to jump to the bootloader, polls
  for the bootloader device, writes the image page by page and reads it
  back block by block.

  PyUSB itself is not part of the script; it is taken as an interface
  ([Transport]) whose answers the script cannot influence.  Every call
  the script makes on that interface is recorded, with its answer, in a
  trace; the statements below are about the script's result and trace
  for an arbitrary transport. *)

From Stdlib Require Import List ZArith Lia Bool Arith PeanoNat.
From Stdlib Require Import Strings.Byte.
Import ListNotations.

(** ** Byte strings *)

(** A Python [bytes] object. *)
Definition bytes := list byte.

Module Bytes.

(** [data[a:b]] for [0 <= a]: the elements from position [a] up to, and
    not including, position [b], cut at the end of [data]. *)
Definition slice (data : bytes) (a b : nat) : bytes :=
  firstn (b - a) (skipn a data).

(** [list(b)]: the integers of a byte string. *)
Definition to_ints (b : bytes) : list Z :=
  map (fun x => Z.of_N (Byte.to_N x)) b.

(** [x != y] on byte strings is the negation of this. *)
Fixpoint eqb (x y : bytes) : bool :=
  match x, y with
  | [], [] => true
  | a :: x', b :: y' => Byte.eqb a b && eqb x' y'
  | _, _ => false
  end.

End Bytes.

(** ** The image loader (lines 53-58) *)

(** [data += b'\000' * (512 - len(data) % 512)] *)
Definition pad (data : bytes) : bytes :=
  data ++ repeat x00 (512 - length data mod 512).

(** [page_count = len(data) // 512] *)
Definition page_count (data : bytes) : nat := length data / 512.

(** [range(n)] *)
Definition range (n : nat) : list nat := seq 0 n.

(** ** The transport *)

(** A [usb.core.Device] object.  [obj] is the identity of the Python
    object: every call of [usb.core.find] that finds a device builds a new
    one.  [dev] is the device the transport says it stands for. *)
Record handle := Handle { obj : nat; dev : nat }.

(** What a call into PyUSB can raise.  [AttributeError] is singled out
    because the polling loop catches it and nothing else. *)
Inductive usb_exn := AttributeError | USBTimeoutError | USBError | OtherError.

(** The answer of a call into PyUSB: a value, or an exception. *)
Inductive reply (A : Type) :=
| Done (a : A)
| Failed (e : usb_exn).
Arguments Done {A} a.
Arguments Failed {A} e.

(** The operations of PyUSB (and of the clock) the script calls, over a
    state [W] of the outside world.  A [timeout] of [None] is a call that
    passes no [timeout] argument.  [less_than_a_second now start] stands
    for the floating-point test [now - start < 1]. *)
Class Transport (W : Type) := {
  timestamp : Type;
  time_time : W -> timestamp * W;
  less_than_a_second : timestamp -> timestamp -> bool;
  usb_core_find : Z -> Z -> W -> reply (option nat) * W;
  device_write : handle -> Z -> list Z -> option Z -> W -> reply unit * W;
  device_read : handle -> Z -> Z -> option Z -> W -> reply bytes * W;
  device_ctrl_transfer :
    handle -> Z -> Z -> Z -> Z -> option (list Z) -> option Z -> W ->
    reply unit * W;
  device_set_configuration : handle -> W -> reply unit * W;
  usb_util_dispose_resources : handle -> W -> reply unit * W;
  device_reset : handle -> W -> reply unit * W
}.

(** One call into PyUSB, with its arguments and its answer. *)
Inductive event :=
| EvFind (idVendor idProduct : Z) (r : reply (option handle))
| EvWrite (h : handle) (endpoint : Z) (data : list Z) (timeout : option Z)
          (r : reply unit)
| EvRead (h : handle) (endpoint size : Z) (timeout : option Z)
         (r : reply bytes)
| EvCtrl (h : handle) (bmRequestType bRequest wValue wIndex : Z)
         (data : option (list Z)) (timeout : option Z) (r : reply unit)
| EvSetConfiguration (h : handle) (r : reply unit)
| EvDispose (h : handle) (r : reply unit)
| EvReset (h : handle) (r : reply unit).

Definition trace := list event.

(** ** The script's state, results and monad *)

(** The global variable [dongle]: not yet assigned, or holding [None] or a
    device. *)
Inductive variable := Unbound | Bound (v : option handle).

Record state (W : Type) := State {
  world : W;
  dongle : variable;
  next_obj : nat
}.
Arguments State {W} world dongle next_obj.
Arguments world {W} s.
Arguments dongle {W} s.
Arguments next_obj {W} s.

(** The exceptions that can end the script. *)
Inductive exn :=
| TransportError (e : usb_exn)
| NameError
| NoCompatibleDevice
| VerificationFailed (page block : nat).

(** The result of running a piece of the script; [OutOfFuel] is the
    polling loop cut by the model, not a result of the script. *)
Inductive result (A : Type) :=
| Ok (a : A)
| Raise (e : exn)
| OutOfFuel.
Arguments Ok {A} a.
Arguments Raise {A} e.
Arguments OutOfFuel {A}.

Definition M (W A : Type) := state W -> result A * state W * trace.

Definition ret {W A} (a : A) : M W A := fun s => (Ok a, s, []).

Definition bind {W A B} (m : M W A) (f : A -> M W B) : M W B :=
  fun s =>
    match m s with
    | (Ok a, s1, t1) =>
        match f a s1 with (r, s2, t2) => (r, s2, t1 ++ t2) end
    | (Raise e, s1, t1) => (Raise e, s1, t1)
    | (OutOfFuel, s1, t1) => (OutOfFuel, s1, t1)
    end.

Definition raise {W A} (e : exn) : M W A := fun s => (Raise e, s, []).

Definition out_of_fuel {W A} : M W A := fun s => (OutOfFuel, s, []).

(** [try: m  except ...: handler]; a [handler] that answers [None] does
    not catch the exception. *)
Definition try_except {W A} (m : M W A) (handler : exn -> option (M W A))
  : M W A :=
  fun s =>
    match m s with
    | (Raise e, s1, t1) =>
        match handler e with
        | Some k => match k s1 with (r, s2, t2) => (r, s2, t1 ++ t2) end
        | None => (Raise e, s1, t1)
        end
    | other => other
    end.

Notation "x <- m ;; k" := (bind m (fun x => k))
  (at level 61, m at next level, right associativity).
Notation "m ;; k" := (bind m (fun _ => k))
  (at level 61, right associativity).

(** [for x in xs: body x] *)
Fixpoint for_each {W A} (xs : list A) (body : A -> M W unit) : M W unit :=
  match xs with
  | [] => ret tt
  | x :: xs' => body x ;; for_each xs' body
  end.

(** [for x in xs: acc = body x acc], for a loop that updates one
    variable. *)
Fixpoint for_fold {W A S} (xs : list A) (body : A -> S -> M W S) (acc : S)
  : M W S :=
  match xs with
  | [] => ret acc
  | x :: xs' => acc' <- body x acc ;; for_fold xs' body acc'
  end.

Definition result_of {W A} (m : M W A) (s : state W) : result A :=
  fst (fst (m s)).
Definition state_of {W A} (m : M W A) (s : state W) : state W :=
  snd (fst (m s)).
Definition trace_of {W A} (m : M W A) (s : state W) : trace := snd (m s).

Section Script.

Context {W : Type} {T : Transport W}.

(** *** Calls into PyUSB *)

Definition answer {A} (r : reply A) : result A :=
  match r with
  | Done a => Ok a
  | Failed e => Raise (TransportError e)
  end.

Definition call {A} (f : W -> reply A * W) (ev : reply A -> event)
  : M W A :=
  fun s =>
    match f (world s) with
    | (r, w) => (answer r, State w (dongle s) (next_obj s), [ev r])
    end.

(** [usb.core.find(idVendor=.., idProduct=..)]: a device that is found
    comes as a new object. *)
Definition find (idVendor idProduct : Z) : M W (option handle) :=
  fun s =>
    match usb_core_find idVendor idProduct (world s) with
    | (Done (Some d), w) =>
        let h := Handle (next_obj s) d in
        (Ok (Some h), State w (dongle s) (S (next_obj s)),
         [EvFind idVendor idProduct (Done (Some h))])
    | (Done None, w) =>
        (Ok None, State w (dongle s) (next_obj s),
         [EvFind idVendor idProduct (Done None)])
    | (Failed e, w) =>
        (Raise (TransportError e), State w (dongle s) (next_obj s),
         [EvFind idVendor idProduct (Failed e)])
    end.

Definition write (h : handle) (endpoint : Z) (data : list Z)
  (timeout : option Z) : M W unit :=
  call (device_write h endpoint data timeout)
       (EvWrite h endpoint data timeout).

Definition read (h : handle) (endpoint size : Z) (timeout : option Z)
  : M W bytes :=
  call (device_read h endpoint size timeout) (EvRead h endpoint size timeout).

Definition ctrl_transfer (h : handle) (bmRequestType bRequest wValue wIndex : Z)
  (data : option (list Z)) (timeout : option Z) : M W unit :=
  call (device_ctrl_transfer h bmRequestType bRequest wValue wIndex data
          timeout)
       (EvCtrl h bmRequestType bRequest wValue wIndex data timeout).

Definition set_configuration (h : handle) : M W unit :=
  call (device_set_configuration h) (EvSetConfiguration h).

Definition dispose_resources (h : handle) : M W unit :=
  call (usb_util_dispose_resources h) (EvDispose h).

Definition reset (h : handle) : M W unit :=
  call (device_reset h) (EvReset h).

(** [time.time()] *)
Definition time : M W timestamp :=
  fun s =>
    match time_time (world s) with
    | (t, w) => (Ok t, State w (dongle s) (next_obj s), [])
    end.

(** [dongle = v] *)
Definition assign_dongle (v : option handle) : M W unit :=
  fun s => (Ok tt, State (world s) (Bound v) (next_obj s), []).

(** *** Line 46 *)

Definition usb_timeout : Z := 2500.

(** *** Lines 62-83: ask an application firmware to jump to the bootloader *)

Definition product_ids : list Z := [0x0102; 0x7777]%Z.

(** The body of [for product_id in product_ids].  Both [continue]
    statements end the iteration, as does falling off the end of the
    body. *)
Definition jump (product_id : Z) : M W unit :=
  try_except
    (d <- find 0x1915 product_id ;;
     assign_dongle d ;;
     match d with
     | None => ret tt
     | Some dongle =>
         (if (product_id =? 0x0102)%Z
          then write dongle 0x01 [0xFF%Z] (Some usb_timeout)
          else ctrl_transfer dongle 0x40 0xFF 0 0 None (Some usb_timeout)) ;;
         try_except
           (dispose_resources dongle ;;
            reset dongle)
           (fun _ => Some (ret tt))
     end)
    (fun _ => Some (ret tt)).

Definition enter_bootloader : M W unit := for_each product_ids jump.

(** *** Lines 87-95: look for the bootloader *)

(** How an iteration of the [while] loop ends. *)
Inductive flow := Break | Continue.

(** The body of the [while] loop. *)
Definition poll_body : M W flow :=
  try_except
    (d <- find 0x1915 0x0101 ;;
     assign_dongle d ;;
     match d with
     | Some dongle => set_configuration dongle ;; ret Break
     | None => ret Continue
     end)
    (fun e =>
       match e with
       | TransportError AttributeError => Some (ret Continue)
       | _ => None
       end).

(** [while time.time() - start < 1: ...]; the loop ends when the clock
    says so, and the model gives it [fuel] iterations to get there. *)
Fixpoint poll (fuel : nat) (start : timestamp) : M W unit :=
  match fuel with
  | O => out_of_fuel
  | S fuel' =>
      now <- time ;;
      if less_than_a_second now start
      then c <- poll_body ;;
           match c with
           | Break => ret tt
           | Continue => poll fuel' start
           end
      else ret tt
  end.

Definition find_bootloader (fuel : nat) : M W unit :=
  start <- time ;;
  poll fuel start.

(** *** Lines 98-100 *)

(** [if not dongle: raise Exception('No compatible device found.')]; a
    device object is true, [None] is false, and reading a variable that
    was never assigned raises [NameError]. *)
Definition check_dongle : M W handle :=
  fun s =>
    match dongle s with
    | Unbound => (Raise NameError, s, [])
    | Bound None => (Raise NoCompatibleDevice, s, [])
    | Bound (Some h) => (Ok h, s, [])
    end.

(** *** Lines 104-114: write the image *)

Definition write_block (h : handle) (data : bytes) (page block : nat)
  : M W unit :=
  let block_write :=
    Bytes.slice data (page * 512 + block * 64) (page * 512 + block * 64 + 64)
  in
  write h 0x01 (Bytes.to_ints block_write) (Some usb_timeout) ;;
  read h 0x81 64 (Some usb_timeout) ;;
  ret tt.

Definition write_page (h : handle) (data : bytes) (page : nat) : M W unit :=
  write h 0x01 [0x02%Z; Z.of_nat page] None ;;
  read h 0x81 64 (Some usb_timeout) ;;
  for_each (range 8) (write_block h data page).

Definition write_pages (h : handle) (data : bytes) : M W unit :=
  for_each (range (page_count data)) (write_page h data).

(** *** Lines 118-128: read the image back *)

(** The body of the inner loop; it answers the new [block_number]. *)
Definition verify_block (h : handle) (data : bytes) (page block : nat)
  (block_number : nat) : M W nat :=
  write h 0x01 [0x03%Z; Z.of_nat block_number] (Some usb_timeout) ;;
  block_read <- read h 0x81 64 (Some usb_timeout) ;;
  if Bytes.eqb block_read
       (Bytes.slice data (block_number * 64) (block_number * 64 + 64))
  then ret (block_number + 1)
  else raise (VerificationFailed page block).

Definition verify_page (h : handle) (data : bytes) (page : nat)
  (block_number : nat) : M W nat :=
  write h 0x01 [0x06%Z; 0%Z] (Some usb_timeout) ;;
  read h 0x81 64 (Some usb_timeout) ;;
  for_fold (range 8) (verify_block h data page) block_number.

Definition verify_pages (h : handle) (data : bytes) : M W nat :=
  for_fold (range (page_count data)) (verify_page h data) 0.

(** *** The two phases on the bootloader, and the whole script *)

Definition flash (h : handle) (data : bytes) : M W unit :=
  write_pages h data ;;
  verify_pages h data ;;
  ret tt.

Definition main (fuel : nat) (firmware : bytes) : M W unit :=
  let data := pad firmware in
  enter_bootloader ;;
  find_bootloader fuel ;;
  h <- check_dongle ;;
  flash h data.

End Script.

(** The state the script starts in. *)
Definition initial {W} (w : W) : state W := State w Unbound 0.

(** ** What a trace says *)

(** The exception an event ended with, if it did. *)
Definition failure (e : event) : option usb_exn :=
  match e with
  | EvFind _ _ (Failed x) | EvWrite _ _ _ _ (Failed x)
  | EvRead _ _ _ _ (Failed x) | EvCtrl _ _ _ _ _ _ _ (Failed x)
  | EvSetConfiguration _ (Failed x) | EvDispose _ (Failed x)
  | EvReset _ (Failed x) => Some x
  | _ => None
  end.

(** The device object an event is a call on (for a lookup, the object it
    answered). *)
Definition subject (e : event) : option handle :=
  match e with
  | EvFind _ _ (Done r) => r
  | EvFind _ _ (Failed _) => None
  | EvWrite h _ _ _ _ | EvRead h _ _ _ _ | EvCtrl h _ _ _ _ _ _ _
  | EvSetConfiguration h _ | EvDispose h _ | EvReset h _ => Some h
  end.

(** Bulk and control transfers, with the [timeout] argument they were
    given. *)
Definition transfer_timeout (e : event) : option (option Z) :=
  match e with
  | EvWrite _ _ _ t _ | EvRead _ _ _ t _ | EvCtrl _ _ _ _ _ _ t _ => Some t
  | _ => None
  end.

(** The lookups of a trace, in order. *)
Fixpoint lookups (tr : trace) : list (Z * Z) :=
  match tr with
  | [] => []
  | EvFind v p _ :: tr' => (v, p) :: lookups tr'
  | _ :: tr' => lookups tr'
  end.

(** A command to the application firmware to jump to the bootloader: a
    bulk write or a control transfer. *)
Definition is_command (e : event) : bool :=
  match e with
  | EvWrite _ _ _ _ _ | EvCtrl _ _ _ _ _ _ _ _ => true
  | _ => false
  end.

Definition is_find (e : event) : bool :=
  match e with
  | EvFind _ _ _ => true
  | _ => false
  end.

(** [Some n] on a write of [[0x03, n]]. *)
Definition verify_request (e : event) : option Z :=
  match e with
  | EvWrite _ _ [c; n] _ _ => if (c =? 0x03)%Z then Some n else None
  | _ => None
  end.

(** A write of [[0x06, 0]] or of [[0x03, n]]. *)
Definition is_verify_command (e : event) : bool :=
  match e with
  | EvWrite _ _ [c; n] _ _ =>
      ((c =? 0x06)%Z && (n =? 0)%Z) || (c =? 0x03)%Z
  | _ => false
  end.

(** The block indices of the [[0x03, n]] requests of a trace, in order. *)
Fixpoint verify_indices (tr : trace) : list Z :=
  match tr with
  | [] => []
  | e :: tr' =>
      match verify_request e with
      | Some n => n :: verify_indices tr'
      | None => verify_indices tr'
      end
  end.

(** The bytes a read answered. *)
Definition read_back (e : event) : option bytes :=
  match e with
  | EvRead _ _ _ _ (Done b) => Some b
  | _ => None
  end.

(** The first block of the trace whose read-back differs from the image:
    the index [n] of the first [[0x03, n]] request whose answer, the read
    that follows it, is not [data[n*64 : n*64+64]]. *)
Fixpoint first_mismatch (data : bytes) (tr : trace) : option nat :=
  match tr with
  | [] => None
  | e :: tr' =>
      match verify_request e, tr' with
      | Some n, e' :: _ =>
          match read_back e' with
          | Some b =>
              if Bytes.eqb b
                   (Bytes.slice data (Z.to_nat n * 64) (Z.to_nat n * 64 + 64))
              then first_mismatch data tr'
              else Some (Z.to_nat n)
          | None => first_mismatch data tr'
          end
      | _, _ => first_mismatch data tr'
      end
  end.

(** ** A simulated dongle

    A transport to run the script on: application firmwares that may be
    attached, a bootloader that shows up after some lookups and keeps what
    is written to it, a clock that ticks at every reading, and two faults
    that can be switched on. *)

Module Sim.

Record device := Device {
  app_a : bool;              (* a 0x1915:0x0102 device is attached *)
  app_b : bool;              (* a 0x1915:0x7777 device is attached *)
  boot_in : nat;             (* lookups before the bootloader shows up *)
  clock : nat;               (* tenths of a second *)
  memory : nat -> bytes;     (* flash, by block of 64 bytes *)
  cursor : nat;              (* block the next 64 bytes go to *)
  selected : option nat;     (* block asked for by [0x03, n] *)
  flipped : option nat;      (* block that reads back with a byte changed *)
  alive : option nat         (* transfers left before all of them time out *)
}.

Definition of_ints (l : list Z) : bytes :=
  map (fun z => match Byte.of_N (Z.to_N z) with Some b => b | None => x00 end)
      l.

Definition flip (b : bytes) : bytes :=
  match b with
  | x :: b' => (if Byte.eqb x x00 then x01 else x00) :: b'
  | [] => [x00]
  end.

(** One transfer less to go; [None] when the link is dead. *)
Definition tick (d : device) : option device :=
  match alive d with
  | None => Some d
  | Some O => None
  | Some (S n) =>
      Some (Device (app_a d) (app_b d) (boot_in d) (clock d) (memory d)
              (cursor d) (selected d) (flipped d) (Some n))
  end.

Definition with_protocol (d : device) (mem : nat -> bytes) (cur : nat)
  (sel : option nat) : device :=
  Device (app_a d) (app_b d) (boot_in d) (clock d) mem cur sel (flipped d)
    (alive d).

Definition sim_find (v p : Z) (d : device) : reply (option nat) * device :=
  if negb (v =? 0x1915)%Z then (Done None, d)
  else if (p =? 0x0102)%Z then (Done (if app_a d then Some 1 else None), d)
  else if (p =? 0x7777)%Z then (Done (if app_b d then Some 2 else None), d)
  else if (p =? 0x0101)%Z then
    match boot_in d with
    | O => (Done (Some 0), d)
    | S n =>
        (Done None,
         Device (app_a d) (app_b d) n (clock d) (memory d) (cursor d)
           (selected d) (flipped d) (alive d))
    end
  else (Done None, d).

Definition sim_write (h : handle) (ep : Z) (data : list Z) (t : option Z)
  (d : device) : reply unit * device :=
  match tick d with
  | None => (Failed USBTimeoutError, d)
  | Some d' =>
      if negb (dev h =? 0) then (Done tt, d')
      else
        match data with
        | [c; a] =>
            if (c =? 0x02)%Z
            then (Done tt, with_protocol d' (memory d') (Z.to_nat a * 8) None)
            else if (c =? 0x03)%Z
            then (Done tt,
                  with_protocol d' (memory d') (cursor d')
                    (Some (Z.to_nat a)))
            else (Done tt, with_protocol d' (memory d') (cursor d') None)
        | _ =>
            (Done tt,
             with_protocol d'
               (fun n => if n =? cursor d' then of_ints data else memory d' n)
               (S (cursor d')) None)
        end
  end.

Definition sim_read (h : handle) (ep size : Z) (t : option Z) (d : device)
  : reply bytes * device :=
  match tick d with
  | None => (Failed USBTimeoutError, d)
  | Some d' =>
      match selected d' with
      | Some n =>
          (Done (if match flipped d' with
                    | Some k => k =? n
                    | None => false
                    end
                 then flip (memory d' n) else memory d' n),
           with_protocol d' (memory d') (cursor d') None)
      | None => (Done (repeat x00 64), d')
      end
  end.

Definition sim_time (d : device) : nat * device :=
  (clock d,
   Device (app_a d) (app_b d) (boot_in d) (S (clock d)) (memory d) (cursor d)
     (selected d) (flipped d) (alive d)).

#[global] Instance transport : Transport device := {
  timestamp := nat;
  time_time := sim_time;
  less_than_a_second now start := now - start <? 10;
  usb_core_find := sim_find;
  device_write := sim_write;
  device_read := sim_read;
  device_ctrl_transfer h _ _ _ _ _ _ d := (Done tt, d);
  device_set_configuration h d := (Done tt, d);
  usb_util_dispose_resources h d := (Done tt, d);
  device_reset h d := (Done tt, d)
}.

(** A dongle in bootloader mode already, with blank flash. *)
Definition blank : device :=
  Device false false 0 0 (fun _ => []) 0 None None None.

(** Both application firmwares attached; the bootloader shows up at the
    third lookup. *)
Definition both_attached : device :=
  Device true true 2 0 (fun _ => []) 0 None None None.

(** A dongle whose block [k] reads back wrong. *)
Definition bad_block (k : nat) : device :=
  Device false false 0 0 (fun _ => []) 0 None (Some k) None.

(** A dongle whose link dies after [n] transfers. *)
Definition dying (n : nat) : device :=
  Device false false 0 0 (fun _ => []) 0 None None (Some n).

(** No bootloader within reach of the polling loop. *)
Definition absent : device :=
  Device false false 1000 0 (fun _ => []) 0 None None None.

(** A firmware image of [n] bytes. *)
Definition image (n : nat) : bytes := repeat xa5 n.

End Sim.

(** ** A host on which lookups raise

    A second transport to run the script on: the lookup of 0x1915:0x0102
    finds a device or raises, the other lookups raise, transfers are
    answered, and the clock ticks at every reading. *)

Module Flaky.

Record host := Host {
  a_attached : bool;       (* a 0x1915:0x0102 device is attached *)
  boot_error : usb_exn;    (* what the lookup of 0x1915:0x0101 raises *)
  now : nat                (* thirds of a second *)
}.

Definition flaky_find (v p : Z) (w : host) : reply (option nat) * host :=
  if (p =? 0x0102)%Z
  then ((if a_attached w then Done (Some 1) else Failed USBError), w)
  else if (p =? 0x0101)%Z then (Failed (boot_error w), w)
  else (Failed USBError, w).

Definition flaky_time (w : host) : nat * host :=
  (now w, Host (a_attached w) (boot_error w) (S (now w))).

#[global] Instance transport : Transport host := {
  timestamp := nat;
  time_time := flaky_time;
  less_than_a_second t start := t - start <? 3;
  usb_core_find := flaky_find;
  device_write h _ _ _ w := (Done tt, w);
  device_read h _ _ _ w := (Done (repeat x00 64), w);
  device_ctrl_transfer h _ _ _ _ _ _ w := (Done tt, w);
  device_set_configuration h w := (Done tt, w);
  usb_util_dispose_resources h w := (Done tt, w);
  device_reset h w := (Failed USBError, w)
}.

(** No permission to look at any device. *)
Definition locked : host := Host false AttributeError 0.

(** An application firmware that is found, and a bootloader whose lookup
    keeps raising [AttributeError]. *)
Definition stuck : host := Host true AttributeError 0.

(** The USB backend breaks down when the bootloader is looked up. *)
Definition broken : host := Host false USBError 0.

End Flaky.

(** ** Shapes of traces *)

(** The command a device found under [product_id] is sent. *)
Definition entry_event (product_id : Z) (h : handle) (r : reply unit)
  : event :=
  if (product_id =? 0x0102)%Z
  then EvWrite h 0x01 [0xFF%Z] (Some 2500%Z) r
  else EvCtrl h 0x40 0xFF 0 0 None (Some 2500%Z) r.

(** What an iteration of the loop over [product_ids] can leave in the
    trace. *)
Inductive jumped (product_id : Z) : trace -> Prop :=
| jumped_error e : jumped product_id [EvFind 0x1915 product_id (Failed e)]
| jumped_absent : jumped product_id [EvFind 0x1915 product_id (Done None)]
| jumped_found h r rest :
    Forall (fun e => is_command e = false /\ is_find e = false) rest ->
    jumped product_id
      (EvFind 0x1915 product_id (Done (Some h))
         :: entry_event product_id h r :: rest).

(** The application-mode search as the specification describes it, to
    compare with the loop: it stops at the first device it finds, so that
    once an entry command is in the trace, no lookup and no entry command
    follows. *)
Definition search_stops_when_found (tr : trace) : Prop :=
  forall pre e post,
    tr = pre ++ e :: post ->
    is_command e = true ->
    Forall (fun e' => is_find e' = false /\ is_command e' = false) post.

(** How a run made of calls into PyUSB ends: a call that fails is the last
    one, and its exception is the result; otherwise every call was
    answered. *)
Definition ended_by {A} (r : result A) (tr : trace) : Prop :=
  match r with
  | Raise (TransportError x) =>
      exists pre e,
        tr = pre ++ [e] /\
        Forall (fun e' => failure e' = None) pre /\ failure e = Some x
  | Raise NameError | Raise NoCompatibleDevice | OutOfFuel => False
  | Ok _ | Raise (VerificationFailed _ _) =>
      Forall (fun e' => failure e' = None) tr
  end.

(** What reading back the blocks [from], [from + 1], ... up to, and not
    including, [upto] leaves in the trace, by the way it ends. *)
Definition verified {A} (data : bytes) (from upto : nat) (r : result A)
  (tr : trace) : Prop :=
  match r with
  | Ok _ =>
      verify_indices tr = map Z.of_nat (seq from (upto - from)) /\
      forall rest, first_mismatch data (tr ++ rest) = first_mismatch data rest
  | Raise (VerificationFailed page block) =>
      block < 8 /\
      from <= page * 8 + block < upto /\
      verify_indices tr
      = map Z.of_nat (seq from (page * 8 + block + 1 - from)) /\
      first_mismatch data tr = Some (page * 8 + block)
  | Raise (TransportError _) =>
      (exists m,
          m <= upto - from /\ verify_indices tr = map Z.of_nat (seq from m)) /\
      first_mismatch data tr = None
  | Raise NameError | Raise NoCompatibleDevice | OutOfFuel => False
  end.

(** *** The life of a device object

    A check run along a trace.  [fresh] is a bound on the identities of
    the objects seen so far; [pending] is a bootloader that was just found
    and is still to be configured. *)

Record monitor := Monitor { fresh : nat; pending : option handle }.

(** The object a transfer, a disposal or a reset is made on. *)
Definition user (e : event) : option handle :=
  match e with
  | EvWrite h _ _ _ _ | EvRead h _ _ _ _ | EvCtrl h _ _ _ _ _ _ _
  | EvDispose h _ | EvReset h _ => Some h
  | EvFind _ _ _ | EvSetConfiguration _ _ => None
  end.

(** A lookup that finds a device answers a new object; a bootloader that
    is found is configured next, and nothing else is; every other call is
    on an object found before. *)
Inductive step : monitor -> event -> monitor -> Prop :=
| step_found n v p h :
    n <= obj h -> p <> 0x0101%Z ->
    step (Monitor n None) (EvFind v p (Done (Some h)))
      (Monitor (S (obj h)) None)
| step_found_bootloader n v h :
    n <= obj h ->
    step (Monitor n None) (EvFind v 0x0101 (Done (Some h)))
      (Monitor (S (obj h)) (Some h))
| step_configure n h r :
    step (Monitor n (Some h)) (EvSetConfiguration h r) (Monitor n None)
| step_absent n v p :
    step (Monitor n None) (EvFind v p (Done None)) (Monitor n None)
| step_lookup_failed n v p x :
    step (Monitor n None) (EvFind v p (Failed x)) (Monitor n None)
| step_use n e h :
    user e = Some h -> obj h < n ->
    step (Monitor n None) e (Monitor n None).

Inductive steps : monitor -> trace -> monitor -> Prop :=
| steps_nil m : steps m [] m
| steps_cons m e m1 tr m2 :
    step m e m1 -> steps m1 tr m2 -> steps m (e :: tr) m2.

(** A pending object is below [fresh]. *)
Definition settled (m : monitor) : Prop :=
  forall h, pending m = Some h -> obj h < fresh m.

(** The variable [dongle] holds nothing that is yet to be found. *)
Definition tidy {W} (s : state W) : Prop :=
  forall h, dongle s = Bound (Some h) -> obj h < next_obj s.

(** A piece of the script, run from [s], leaves a trace the check
    accepts, and a state from which the check can go on. *)
Definition disciplined {W A} (c : M W A) (s : state W) : Prop :=
  steps (Monitor (next_obj s) None) (trace_of c s)
    (Monitor (next_obj (state_of c s)) None) /\
  tidy (state_of c s).

(** The same, for a piece after which nothing of the trace matters. *)
Definition accepted {W A} (c : M W A) (s : state W) : Prop :=
  exists m,
    steps (Monitor (next_obj s) None) (trace_of c s) m /\ pending m = None.

(** *** What was sent and what was read back *)

(** The page of a write of [[0x02, page]]. *)
Definition page_header (e : event) : list Z :=
  match e with
  | EvWrite _ _ [c; p] _ _ => if (c =? 0x02)%Z then [p] else []
  | _ => []
  end.

(** The pages of the [[0x02, page]] writes of a trace, in order. *)
Definition page_headers (tr : trace) : list Z := flat_map page_header tr.

(** The payload of a write of 64 integers, a block of the image. *)
Definition block_payload (e : event) : list Z :=
  match e with
  | EvWrite _ _ d _ _ => if length d =? 64 then d else []
  | _ => []
  end.

(** The blocks a trace has sent, one after the other. *)
Definition sent_data (tr : trace) : list Z := flat_map block_payload tr.

(** The blocks a trace has read back: for every [[0x03, n]] request that
    the next call, a read, answered, the index [n] and the bytes. *)
Fixpoint read_backs (tr : trace) : list (Z * bytes) :=
  match tr with
  | [] => []
  | e :: tr' =>
      match verify_request e, tr' with
      | Some n, e' :: _ =>
          match read_back e' with
          | Some b => (n, b) :: read_backs tr'
          | None => read_backs tr'
          end
      | _, _ => read_backs tr'
      end
  end.

(** A list is the beginning of another. *)
Definition prefix_of {X} (l full : list X) : Prop :=
  exists rest, l ++ rest = full.

(** Writes on endpoint 0x01 of [h], each answered by a read of 64 bytes
    on endpoint 0x81 of [h] before the next write. *)
Inductive exchanges (h : handle) : trace -> Prop :=
| exchanges_nil : exchanges h []
| exchanges_cons d t a t' b rest :
    exchanges h rest ->
    exchanges h
      (EvWrite h 0x01 d t (Done a) :: EvRead h 0x81 64 t' (Done b) :: rest).

(** The same, for a trace that may end on a write or on a read that
    failed. *)
Inductive half_duplex (h : handle) : trace -> Prop :=
| half_duplex_nil : half_duplex h []
| half_duplex_write_failed d t x :
    half_duplex h [EvWrite h 0x01 d t (Failed x)]
| half_duplex_read_failed d t a t' x :
    half_duplex h
      [EvWrite h 0x01 d t (Done a); EvRead h 0x81 64 t' (Failed x)]
| half_duplex_cons d t a t' b rest :
    half_duplex h rest ->
    half_duplex h
      (EvWrite h 0x01 d t (Done a) :: EvRead h 0x81 64 t' (Done b) :: rest).

(** The trace of a run by the way the run ended. *)
Definition duplex {A} (h : handle) (r : result A) (tr : trace) : Prop :=
  match r with
  | Ok _ => exchanges h tr
  | _ => half_duplex h tr
  end.

(** A lookup that did not raise. *)
Definition lookup_answered (e : event) : bool :=
  match e with
  | EvFind _ _ (Done _) => true
  | _ => false
  end.

(** A lookup that found a device. *)
Definition lookup_found (e : event) : bool :=
  match e with
  | EvFind _ _ (Done (Some _)) => true
  | _ => false
  end.

(** A lookup of the bootloader, or a [set_configuration]. *)
Definition is_polling (e : event) : bool :=
  match e with
  | EvFind v p _ => (v =? 0x1915)%Z && (p =? 0x0101)%Z
  | EvSetConfiguration _ _ => true
  | _ => false
  end.

(** *** The two searches, step by step *)

(** What follows an entry command that was answered by [c]: nothing when
    the command failed; else the disposal, and the reset when the disposal
    did not fail. *)
Inductive released (h : handle) : reply unit -> trace -> Prop :=
| released_not x : released h (Failed x) []
| released_dispose_failed a x :
    released h (Done a) [EvDispose h (Failed x)]
| released_reset a a' r :
    released h (Done a) [EvDispose h (Done a'); EvReset h r].

(** An iteration of the loop over [product_ids]: the variable [dongle]
    before and after, and the trace. *)
Inductive jump_step (product_id : Z) (v : variable)
  : variable -> trace -> Prop :=
| jump_lookup_failed x :
    jump_step product_id v v [EvFind 0x1915 product_id (Failed x)]
| jump_absent :
    jump_step product_id v (Bound None)
      [EvFind 0x1915 product_id (Done None)]
| jump_found h c rest :
    released h c rest ->
    jump_step product_id v (Bound (Some h))
      (EvFind 0x1915 product_id (Done (Some h))
         :: entry_event product_id h c :: rest).

(** An iteration of the polling loop: the variable [dongle] before, how
    the iteration ends, the variable after, and the trace. *)
Inductive poll_step (v : variable)
  : result flow -> variable -> trace -> Prop :=
| poll_lookup_retry :
    poll_step v (Ok Continue) v
      [EvFind 0x1915 0x0101 (Failed AttributeError)]
| poll_lookup_fatal x :
    x <> AttributeError ->
    poll_step v (Raise (TransportError x)) v
      [EvFind 0x1915 0x0101 (Failed x)]
| poll_absent :
    poll_step v (Ok Continue) (Bound None)
      [EvFind 0x1915 0x0101 (Done None)]
| poll_configured h a :
    poll_step v (Ok Break) (Bound (Some h))
      [EvFind 0x1915 0x0101 (Done (Some h));
       EvSetConfiguration h (Done a)]
| poll_configure_retry h :
    poll_step v (Ok Continue) (Bound (Some h))
      [EvFind 0x1915 0x0101 (Done (Some h));
       EvSetConfiguration h (Failed AttributeError)]
| poll_configure_fatal h x :
    x <> AttributeError ->
    poll_step v (Raise (TransportError x)) (Bound (Some h))
      [EvFind 0x1915 0x0101 (Done (Some h));
       EvSetConfiguration h (Failed x)].

(** A run of the polling loop: iterations that go on, up to one that
    breaks or raises, or to the clock or the fuel running out. *)
Inductive polling : variable -> result unit -> variable -> trace -> Prop :=
| polling_out_of_fuel v : polling v OutOfFuel v []
| polling_time_over v : polling v (Ok tt) v []
| polling_break v v' tr :
    poll_step v (Ok Break) v' tr -> polling v (Ok tt) v' tr
| polling_fatal v v' e tr :
    poll_step v (Raise e) v' tr -> polling v (Raise e) v' tr
| polling_continue v v1 t1 r v2 t2 :
    poll_step v (Ok Continue) v1 t1 ->
    polling v1 r v2 t2 ->
    polling v r v2 (t1 ++ t2).

(** An event that is not a lookup, or a lookup that answered [None]. *)
Definition finds_nothing (e : event) : Prop :=
  match e with
  | EvFind _ _ r => r = Done None
  | _ => True
  end.

(** An event of the searches: it sends no block of the image and asks for
    none. *)
Definition searching (e : event) : Prop :=
  block_payload e = [] /\ verify_request e = None.

(** The variable [dongle] after a trace, from what it was before: every
    lookup that does not raise assigns its answer. *)
Fixpoint assigned (tr : trace) (before : variable) : variable :=
  match tr with
  | [] => before
  | EvFind _ _ (Done r) :: tr' => assigned tr' (Bound r)
  | _ :: tr' => assigned tr' before
  end.

(** *** The searches of the script

    The application-mode search and the polling loop, one after the
    other: the trace they leave, the state they leave it in, and how the
    polling loop ends. *)

Section Searches.

Context {W : Type} {T : Transport W}.

Definition searches_trace (fuel : nat) (s : state W) : trace :=
  trace_of enter_bootloader s
  ++ trace_of (find_bootloader fuel) (state_of enter_bootloader s).

Definition searches_state (fuel : nat) (s : state W) : state W :=
  state_of (find_bootloader fuel) (state_of enter_bootloader s).

Definition searches_result (fuel : nat) (s : state W) : result unit :=
  result_of (find_bootloader fuel) (state_of enter_bootloader s).

End Searches.

(** * Properties *)

(** ** Byte strings *)

Section BytesFacts.

Lemma bytes_eqb_eq (x y : bytes) : Bytes.eqb x y = true <-> x = y.
Proof.
  revert y; induction x as [|a x IH]; intros [|b y]; simpl;
    try (split; [discriminate | congruence]); try tauto.
  rewrite andb_true_iff, IH. split.
  - intros [Hab ->]. apply Byte.byte_dec_bl in Hab. now subst.
  - intros [= -> ->]. split; [now apply Byte.byte_dec_lb | reflexivity].
Qed.

Lemma bytes_eqb_neq (x y : bytes) : Bytes.eqb x y = false <-> x <> y.
Proof.
  rewrite <- bytes_eqb_eq. destruct (Bytes.eqb x y); split; congruence.
Qed.

Lemma slice_length (data : bytes) (a b : nat) :
  b <= length data -> length (Bytes.slice data a b) = b - a.
Proof.
  intros Hb. unfold Bytes.slice. rewrite length_firstn, length_skipn. lia.
Qed.

Lemma to_ints_length (b : bytes) : length (Bytes.to_ints b) = length b.
Proof. apply length_map. Qed.

End BytesFacts.

(** ** Padding *)

Section Padding.

Variable data : bytes.

Lemma pad_length :
  length (pad data) = length data + (512 - length data mod 512).
Proof. unfold pad. now rewrite length_app, repeat_length. Qed.

Lemma pad_whole_pages :
  length (pad data) = (length data / 512 + 1) * 512.
Proof.
  rewrite pad_length.
  pose proof (Nat.mod_upper_bound (length data) 512 ltac:(lia)) as Hlt.
  pose proof (Nat.div_mod_eq (length data) 512) as Hdm.
  lia.
Qed.

Lemma pad_multiple : length (pad data) mod 512 = 0.
Proof. rewrite pad_whole_pages. apply Nat.Div0.mod_mul. Qed.

Lemma pad_page_count : page_count (pad data) = length data / 512 + 1.
Proof.
  unfold page_count. rewrite pad_whole_pages. apply Nat.div_mul. lia.
Qed.

Lemma pad_prefix : firstn (length data) (pad data) = data.
Proof.
  unfold pad. rewrite firstn_app, Nat.sub_diag, firstn_all. simpl.
  apply app_nil_r.
Qed.

Lemma pad_suffix :
  skipn (length data) (pad data) = repeat x00 (512 - length data mod 512).
Proof.
  unfold pad. rewrite skipn_app, Nat.sub_diag, skipn_all. reflexivity.
Qed.

Lemma pad_suffix_zero :
  Forall (fun b => b = x00) (skipn (length data) (pad data)).
Proof.
  rewrite pad_suffix. apply Forall_forall. intros b Hb.
  now apply repeat_spec in Hb.
Qed.

Lemma pad_unaligned :
  length data mod 512 <> 0 ->
  length (pad data) = length data + (512 - length data mod 512) mod 512.
Proof.
  intros Hne. rewrite pad_length.
  rewrite (Nat.mod_small (512 - length data mod 512)); lia.
Qed.

Lemma pad_aligned :
  length data mod 512 = 0 -> length (pad data) = length data + 512.
Proof. intros H0. rewrite pad_length, H0. reflexivity. Qed.

End Padding.

(** ** Running the monad *)

Section MonadFacts.

Context {W : Type}.

Lemma result_of_bind {A B} (m : M W A) (f : A -> M W B) (s : state W) :
  result_of (bind m f) s =
  match result_of m s with
  | Ok a => result_of (f a) (state_of m s)
  | Raise e => Raise e
  | OutOfFuel => OutOfFuel
  end.
Proof.
  unfold result_of, state_of, bind.
  destruct (m s) as [[[a|e|] s1] t1]; simpl; try reflexivity.
  now destruct (f a s1) as [[r s2] t2].
Qed.

Lemma state_of_bind {A B} (m : M W A) (f : A -> M W B) (s : state W) :
  state_of (bind m f) s =
  match result_of m s with
  | Ok a => state_of (f a) (state_of m s)
  | _ => state_of m s
  end.
Proof.
  unfold result_of, state_of, bind.
  destruct (m s) as [[[a|e|] s1] t1]; simpl; try reflexivity.
  now destruct (f a s1) as [[r s2] t2].
Qed.

Lemma trace_of_bind {A B} (m : M W A) (f : A -> M W B) (s : state W) :
  trace_of (bind m f) s =
  match result_of m s with
  | Ok a => trace_of m s ++ trace_of (f a) (state_of m s)
  | _ => trace_of m s
  end.
Proof.
  unfold result_of, state_of, trace_of, bind.
  destruct (m s) as [[[a|e|] s1] t1]; simpl; try reflexivity.
  now destruct (f a s1) as [[r s2] t2].
Qed.

Lemma result_of_ret {A} (a : A) (s : state W) : result_of (ret a) s = Ok a.
Proof. reflexivity. Qed.

Lemma trace_of_ret {A} (a : A) (s : state W) : trace_of (ret a) s = [].
Proof. reflexivity. Qed.

Lemma state_of_ret {A} (a : A) (s : state W) : state_of (ret a) s = s.
Proof. reflexivity. Qed.

End MonadFacts.

(** Takes the script apart down to the calls into PyUSB and splits on
    their answers. *)
Ltac reduce_run :=
  cbn [world dongle next_obj fst snd app answer] in *.

Ltac split_calls :=
  repeat
    (reduce_run;
     match goal with
     | |- context [match ?c with (_, _) => _ end] =>
         lazymatch type of c with
         | (reply _ * _)%type =>
             let r := fresh "r" in
             let w := fresh "w" in
             destruct c as [r w]; destruct r
         end
     | |- context [match ?c with Some _ => _ | None => _ end] =>
         is_var c; destruct c
     | |- context [match ?c with Done _ => _ | Failed _ => _ end] =>
         is_var c; destruct c
     end);
  reduce_run.

(** ** Asking for the bootloader (lines 62-83) *)

Section Jump.

Context {W : Type} {T : Transport W}.

Lemma jump_jumped (product_id : Z) (s : state W) :
  jumped product_id (trace_of (jump product_id) s).
Proof.
  unfold trace_of, jump, try_except, bind, find, assign_dongle, write,
    ctrl_transfer, dispose_resources, reset, call, ret, usb_timeout.
  destruct (product_id =? 0x0102)%Z eqn:Hid; split_calls;
    try (constructor; fail);
    match goal with
    | |- jumped _ (_ :: ?c :: _) =>
        match c with
        | EvWrite ?h _ _ _ ?r =>
            replace c with (entry_event product_id h r)
              by (unfold entry_event; rewrite Hid; reflexivity)
        | EvCtrl ?h _ _ _ _ _ _ ?r =>
            replace c with (entry_event product_id h r)
              by (unfold entry_event; rewrite Hid; reflexivity)
        end
    end;
    constructor; repeat constructor.
Qed.

Lemma jump_returns (product_id : Z) (s : state W) :
  result_of (jump product_id) s = Ok tt.
Proof.
  unfold result_of, jump, try_except, bind, find, assign_dongle, write,
    ctrl_transfer, dispose_resources, reset, call, ret.
  destruct (product_id =? 0x0102)%Z; split_calls;
    repeat match goal with u : unit |- _ => destruct u end; reflexivity.
Qed.

Lemma enter_bootloader_trace (s : state W) :
  trace_of enter_bootloader s =
  trace_of (jump 0x0102) s ++ trace_of (jump 0x7777) (state_of (jump 0x0102) s).
Proof.
  unfold enter_bootloader, product_ids, for_each.
  rewrite trace_of_bind, jump_returns.
  rewrite trace_of_bind, jump_returns.
  rewrite trace_of_ret. now rewrite app_nil_r.
Qed.

Lemma enter_bootloader_returns (s : state W) :
  result_of enter_bootloader s = Ok tt.
Proof.
  unfold enter_bootloader, product_ids, for_each.
  rewrite result_of_bind, jump_returns.
  rewrite result_of_bind, jump_returns.
  reflexivity.
Qed.

Lemma jumped_lookups (product_id : Z) (tr : trace) :
  jumped product_id tr -> lookups tr = [(0x1915%Z, product_id)].
Proof.
  intros [e | | h r rest Hrest]; try reflexivity.
  simpl. f_equal.
  assert (Hnone : lookups rest = []).
  { induction Hrest as [|e rest [_ He] _ IH]; [reflexivity|].
    destruct e; simpl in *; try discriminate; exact IH. }
  unfold entry_event. destruct (product_id =? 0x0102)%Z; exact Hnone.
Qed.

Lemma lookups_app (t1 t2 : trace) :
  lookups (t1 ++ t2) = lookups t1 ++ lookups t2.
Proof.
  induction t1 as [|e t1 IH]; [reflexivity|].
  destruct e; simpl; rewrite IH; reflexivity.
Qed.

End Jump.

(** ** Traces of composed runs *)

Section TraceForall.

Context {W : Type} (P : event -> Prop).

Lemma trace_Forall_bind {A B} (m : M W A) (f : A -> M W B) (s : state W) :
  Forall P (trace_of m s) ->
  (forall a,
      result_of m s = Ok a -> Forall P (trace_of (f a) (state_of m s))) ->
  Forall P (trace_of (bind m f) s).
Proof.
  intros Hm Hf. rewrite trace_of_bind.
  destruct (result_of m s) as [a|e|]; try exact Hm.
  apply Forall_app. split; [exact Hm | now apply Hf].
Qed.

Lemma trace_Forall_for_each {A} (xs : list A) (body : A -> M W unit) :
  (forall x s, In x xs -> Forall P (trace_of (body x) s)) ->
  forall s, Forall P (trace_of (for_each xs body) s).
Proof.
  induction xs as [|x xs IH]; intros Hbody s; simpl.
  - constructor.
  - apply trace_Forall_bind.
    + apply Hbody. now left.
    + intros _ _. apply IH. intros y s' Hy. apply Hbody. now right.
Qed.

Lemma trace_Forall_for_fold {A S} (xs : list A) (body : A -> S -> M W S) :
  (forall x acc s, In x xs -> Forall P (trace_of (body x acc) s)) ->
  forall acc s, Forall P (trace_of (for_fold xs body acc) s).
Proof.
  induction xs as [|x xs IH]; intros Hbody acc s; simpl.
  - constructor.
  - apply trace_Forall_bind.
    + apply Hbody. now left.
    + intros acc' _. apply IH. intros y a s' Hy. apply Hbody. now right.
Qed.

End TraceForall.

Section EndedBy.

Context {W : Type} {T : Transport W}.

Lemma ended_by_app {A B} (a : A) (r : result B) (t1 t2 : trace) :
  ended_by (Ok a) t1 -> ended_by r t2 -> ended_by r (t1 ++ t2).
Proof.
  intros H1 H2. destruct r as [b|[x| | |p k]|]; simpl in *;
    try contradiction; try (apply Forall_app; now split).
  destruct H2 as (pre & e & -> & Hpre & He).
  exists (t1 ++ pre), e. rewrite app_assoc. repeat split; try assumption.
  apply Forall_app. now split.
Qed.

Lemma ended_by_bind {A B} (m : M W A) (f : A -> M W B) (s : state W) :
  ended_by (result_of m s) (trace_of m s) ->
  (forall a,
      result_of m s = Ok a ->
      ended_by (result_of (f a) (state_of m s))
        (trace_of (f a) (state_of m s))) ->
  ended_by (result_of (bind m f) s) (trace_of (bind m f) s).
Proof.
  intros Hm Hf. rewrite result_of_bind, trace_of_bind.
  destruct (result_of m s) as [a|e|]; try exact Hm.
  eapply ended_by_app; [exact Hm | now apply Hf].
Qed.

Lemma ended_by_for_each {A} (xs : list A) (body : A -> M W unit) :
  (forall x s,
      In x xs -> ended_by (result_of (body x) s) (trace_of (body x) s)) ->
  forall s,
    ended_by (result_of (for_each xs body) s) (trace_of (for_each xs body) s).
Proof.
  induction xs as [|x xs IH]; intros Hbody s; simpl.
  - constructor.
  - apply ended_by_bind.
    + apply Hbody. now left.
    + intros _ _. apply IH. intros y s' Hy. apply Hbody. now right.
Qed.

Lemma ended_by_for_fold {A S} (xs : list A) (body : A -> S -> M W S) :
  (forall x acc s,
      In x xs ->
      ended_by (result_of (body x acc) s) (trace_of (body x acc) s)) ->
  forall acc s,
    ended_by (result_of (for_fold xs body acc) s)
      (trace_of (for_fold xs body acc) s).
Proof.
  induction xs as [|x xs IH]; intros Hbody acc s; simpl.
  - constructor.
  - apply ended_by_bind.
    + apply Hbody. now left.
    + intros acc' _. apply IH. intros y a s' Hy. apply Hbody. now right.
Qed.

Lemma ended_by_call {A} (f : W -> reply A * W) (ev : reply A -> event)
  (s : state W) :
  (forall r,
      failure (ev r)
      = match r with Done _ => None | Failed x => Some x end) ->
  ended_by (result_of (call f ev) s) (trace_of (call f ev) s).
Proof.
  intros Hev. unfold result_of, trace_of, call.
  destruct (f (world s)) as [[a|x] w]; simpl.
  - constructor; [apply (Hev (Done a)) | constructor].
  - exists [], (ev (Failed x)).
    repeat split; [constructor | apply (Hev (Failed x))].
Qed.

Lemma ended_by_write h ep data t (s : state W) :
  ended_by (result_of (write h ep data t) s) (trace_of (write h ep data t) s).
Proof. apply ended_by_call. now intros [a|x]. Qed.

Lemma ended_by_read h ep size t (s : state W) :
  ended_by (result_of (read h ep size t) s) (trace_of (read h ep size t) s).
Proof. apply ended_by_call. now intros [a|x]. Qed.

Lemma ended_by_failure {A} (r : result A) (tr : trace) (e : event)
  (x : usb_exn) :
  ended_by r tr -> In e tr -> failure e = Some x ->
  r = Raise (TransportError x) /\ exists pre, tr = pre ++ [e].
Proof.
  intros Hr Hin Hx.
  assert (Hall : Forall (fun e' => failure e' = None) tr -> False).
  { intros Hall. rewrite Forall_forall in Hall. specialize (Hall e Hin).
    congruence. }
  destruct r as [a|[y| | |p k]|]; simpl in Hr; try contradiction;
    try (now exfalso; apply Hall).
  destruct Hr as (pre & e' & -> & Hpre & He').
  apply in_app_or in Hin. destruct Hin as [Hin|[<-|[]]].
  - rewrite Forall_forall in Hpre. specialize (Hpre e Hin). congruence.
  - split; [congruence | now exists pre].
Qed.

End EndedBy.

(** ** Calls and their one event *)

Section Calls.

Context {W : Type} {T : Transport W}.

Lemma call_trace {A} (f : W -> reply A * W) (ev : reply A -> event)
  (s : state W) :
  trace_of (call f ev) s = [ev (fst (f (world s)))].
Proof. unfold trace_of, call. now destruct (f (world s)). Qed.

Lemma call_result {A} (f : W -> reply A * W) (ev : reply A -> event)
  (s : state W) :
  result_of (call f ev) s = answer (fst (f (world s))).
Proof. unfold result_of, call. now destruct (f (world s)). Qed.

Lemma trace_Forall_write (P : event -> Prop) h ep data t (s : state W) :
  (forall r, P (EvWrite h ep data t r)) ->
  Forall P (trace_of (write h ep data t) s).
Proof.
  intros HP. unfold write. rewrite call_trace.
  constructor; [apply HP | constructor].
Qed.

Lemma trace_Forall_read (P : event -> Prop) h ep size t (s : state W) :
  (forall r, P (EvRead h ep size t r)) ->
  Forall P (trace_of (read h ep size t) s).
Proof.
  intros HP. unfold read. rewrite call_trace.
  constructor; [apply HP | constructor].
Qed.

End Calls.

(** ** Writing the image (lines 104-114) *)

Section Writing.

Context {W : Type} {T : Transport W}.

Variables (h : handle) (data : bytes).

Lemma block_in_image (page block : nat) :
  page < page_count data -> block < 8 ->
  page * 512 + block * 64 + 64 <= length data.
Proof.
  unfold page_count. intros Hp Hb.
  pose proof (Nat.Div0.mul_div_le (length data) 512). lia.
Qed.

Lemma block_write_length (page block : nat) :
  page < page_count data -> block < 8 ->
  length
    (Bytes.to_ints
       (Bytes.slice data (page * 512 + block * 64)
          (page * 512 + block * 64 + 64)))
  = 64.
Proof.
  intros Hp Hb. rewrite to_ints_length, slice_length.
  - lia.
  - now apply block_in_image.
Qed.

Lemma long_write_is_no_verify_command h' ep (payload : list Z) t r :
  length payload <> 2 -> is_verify_command (EvWrite h' ep payload t r) = false.
Proof.
  destruct payload as [|a [|b [|c l]]]; simpl; intros Hl;
    try reflexivity. now contradiction Hl.
Qed.

Lemma write_block_ended (page block : nat) (s : state W) :
  ended_by (result_of (write_block h data page block) s)
    (trace_of (write_block h data page block) s).
Proof.
  unfold write_block.
  apply ended_by_bind; [apply ended_by_write | intros _ _].
  apply ended_by_bind; [apply ended_by_read | intros _ _].
  constructor.
Qed.

Lemma write_page_ended (page : nat) (s : state W) :
  ended_by (result_of (write_page h data page) s)
    (trace_of (write_page h data page) s).
Proof.
  unfold write_page.
  apply ended_by_bind; [apply ended_by_write | intros _ _].
  apply ended_by_bind; [apply ended_by_read | intros _ _].
  apply ended_by_for_each. intros block s' _. apply write_block_ended.
Qed.

Lemma write_pages_ended (s : state W) :
  ended_by (result_of (write_pages h data) s)
    (trace_of (write_pages h data) s).
Proof.
  unfold write_pages. apply ended_by_for_each.
  intros page s' _. apply write_page_ended.
Qed.

Lemma write_block_no_verify_command (page block : nat) (s : state W) :
  page < page_count data -> block < 8 ->
  Forall (fun e => is_verify_command e = false)
    (trace_of (write_block h data page block) s).
Proof.
  intros Hp Hb. unfold write_block.
  apply trace_Forall_bind; [|intros _ _].
  { apply trace_Forall_write. intros r.
    apply long_write_is_no_verify_command.
    rewrite block_write_length by assumption. discriminate. }
  apply trace_Forall_bind; [|intros _ _].
  { apply trace_Forall_read. reflexivity. }
  constructor.
Qed.

Lemma write_pages_no_verify_command (s : state W) :
  Forall (fun e => is_verify_command e = false)
    (trace_of (write_pages h data) s).
Proof.
  unfold write_pages. apply trace_Forall_for_each.
  intros page s' Hpage. apply in_seq in Hpage.
  unfold write_page.
  apply trace_Forall_bind; [|intros _ _].
  { apply trace_Forall_write. reflexivity. }
  apply trace_Forall_bind; [|intros _ _].
  { apply trace_Forall_read. reflexivity. }
  apply trace_Forall_for_each. intros block s'' Hblock.
  apply in_seq in Hblock.
  apply write_block_no_verify_command; lia.
Qed.

End Writing.

(** ** Reading the image back (lines 118-128) *)

Section TraceReadings.

Variable data : bytes.

Lemma verify_indices_app (t1 t2 : trace) :
  verify_indices (t1 ++ t2) = verify_indices t1 ++ verify_indices t2.
Proof.
  induction t1 as [|e t1 IH]; [reflexivity|].
  simpl. destruct (verify_request e); simpl; now rewrite IH.
Qed.

Lemma no_verify_command_no_request (e : event) :
  is_verify_command e = false -> verify_request e = None.
Proof.
  destruct e as [| ? ? [|c [|n [|]]] | | | | |]; simpl; try reflexivity.
  destruct (c =? 3)%Z; [|reflexivity].
  rewrite orb_true_r. discriminate.
Qed.

Lemma first_mismatch_skip (e : event) (tr : trace) :
  verify_request e = None ->
  first_mismatch data (e :: tr) = first_mismatch data tr.
Proof. intros He. simpl. now rewrite He. Qed.

Lemma first_mismatch_skip_all (t1 t2 : trace) :
  Forall (fun e => verify_request e = None) t1 ->
  first_mismatch data (t1 ++ t2) = first_mismatch data t2.
Proof.
  induction 1 as [|e t1 He _ IH]; [reflexivity|].
  rewrite <- app_comm_cons, first_mismatch_skip; assumption.
Qed.

Lemma verify_indices_skip_all (t : trace) :
  Forall (fun e => verify_request e = None) t -> verify_indices t = [].
Proof.
  induction 1 as [|e t He _ IH]; [reflexivity|].
  simpl. now rewrite He.
Qed.

Lemma verified_app {A B} (from mid upto : nat) (a : A) (r : result B)
  (t1 t2 : trace) :
  from <= mid <= upto ->
  verified data from mid (Ok a) t1 ->
  verified data mid upto r t2 ->
  verified data from upto r (t1 ++ t2).
Proof.
  intros Hle [Hi1 Hm1] H2.
  assert (Hseq : forall n,
             map Z.of_nat (seq from (mid - from)) ++ map Z.of_nat (seq mid n)
             = map Z.of_nat (seq from (mid + n - from))).
  { intros n. rewrite <- map_app. f_equal.
    replace (mid + n - from) with ((mid - from) + n) by lia.
    rewrite seq_app. do 2 f_equal. lia. }
  destruct r as [b|[x| | |p k]|]; simpl in *; try contradiction.
  - destruct H2 as [Hi2 Hm2]. split.
    + rewrite verify_indices_app, Hi1, Hi2, Hseq. do 3 f_equal. lia.
    + intros rest. now rewrite <- app_assoc, Hm1, Hm2.
  - destruct H2 as [[m [Hm Hi2]] Hm2]. split.
    + exists (mid + m - from). split; [lia|].
      now rewrite verify_indices_app, Hi1, Hi2, Hseq.
    + now rewrite Hm1.
  - destruct H2 as (Hk & Hrange & Hi2 & Hm2). repeat split; try lia.
    + rewrite verify_indices_app, Hi1, Hi2, Hseq. do 3 f_equal. lia.
    + now rewrite Hm1.
Qed.

Lemma verified_raise {A B} (from mid upto : nat) (e : exn) (tr : trace) :
  mid <= upto ->
  verified data from mid (@Raise A e) tr ->
  verified data from upto (@Raise B e) tr.
Proof.
  intros Hle. destruct e as [x| | |p k]; simpl; try tauto.
  - intros [[m [Hm Hi]] Hmm]. split; [|exact Hmm].
    exists m. split; [lia | exact Hi].
  - intros (Hk & Hrange & Hi & Hm). repeat split; try assumption; lia.
Qed.

End TraceReadings.

Section Verifying.

Context {W : Type} {T : Transport W}.

Variables (h : handle) (data : bytes).

Lemma verified_bind {A B} (from mid upto : nat) (m : M W A) (f : A -> M W B)
  (s : state W) :
  from <= mid <= upto ->
  verified data from mid (result_of m s) (trace_of m s) ->
  (forall a,
      result_of m s = Ok a ->
      verified data mid upto (result_of (f a) (state_of m s))
        (trace_of (f a) (state_of m s))) ->
  verified data from upto (result_of (bind m f) s) (trace_of (bind m f) s).
Proof.
  intros Hle Hm Hf. rewrite result_of_bind, trace_of_bind.
  destruct (result_of m s) as [a|e|]; try contradiction.
  - eapply verified_app; [exact Hle | exact Hm | now apply Hf].
  - eapply verified_raise; [|exact Hm]. lia.
Qed.

Lemma verified_call {A} (from : nat) (f : W -> reply A * W)
  (ev : reply A -> event) (s : state W) :
  (forall r, verify_request (ev r) = None) ->
  verified data from from (result_of (call f ev) s) (trace_of (call f ev) s).
Proof.
  intros Hev. rewrite call_result, call_trace.
  destruct (fst (f (world s))) as [a|x]; simpl; rewrite Hev.
  - rewrite Nat.sub_diag. split; [reflexivity|].
    intros rest. now destruct rest.
  - split; [|reflexivity]. exists 0. split; [lia|reflexivity].
Qed.

Lemma verify_block_verified (page block bn : nat) (s : state W) :
  bn = page * 8 + block -> block < 8 ->
  verified data bn (bn + 1)
    (result_of (verify_block h data page block bn) s)
    (trace_of (verify_block h data page block bn) s) /\
  forall k,
    result_of (verify_block h data page block bn) s = Ok k -> k = bn + 1.
Proof.
  intros Hbn Hblock.
  unfold result_of, trace_of, verify_block, bind, write, read, call, ret, raise.
  split_calls.
  - destruct (Bytes.eqb a0 _) eqn:Heq; cbn [fst snd app].
    + split; [|now intros k [= <-]].
      cbn [verified verify_indices verify_request Z.eqb Pos.eqb].
      replace (bn + 1 - bn) with 1 by lia. split; [reflexivity|].
      intros rest.
      cbn [app first_mismatch verify_request read_back Z.eqb Pos.eqb].
      rewrite Nat2Z.id, Heq. reflexivity.
    + split; [|discriminate].
      cbn [verified verify_indices verify_request Z.eqb Pos.eqb].
      rewrite <- Hbn. replace (bn + 1 - bn) with 1 by lia.
      repeat split; try lia.
      cbn [first_mismatch verify_request read_back Z.eqb Pos.eqb].
      rewrite Nat2Z.id, Heq. reflexivity.
  - split; [|discriminate].
    cbn [verified verify_indices first_mismatch verify_request read_back
           Z.eqb Pos.eqb].
    split; [|reflexivity]. exists 1. split; [lia|reflexivity].
  - split; [|discriminate].
    cbn [verified verify_indices first_mismatch verify_request read_back
           Z.eqb Pos.eqb].
    split; [|reflexivity]. exists 1. split; [lia|reflexivity].
Qed.

Lemma verify_blocks_verified (page : nat) :
  forall n block bn (s : state W),
    bn = page * 8 + block -> block + n <= 8 ->
    verified data bn (bn + n)
      (result_of (for_fold (seq block n) (verify_block h data page) bn) s)
      (trace_of (for_fold (seq block n) (verify_block h data page) bn) s) /\
    forall k,
      result_of (for_fold (seq block n) (verify_block h data page) bn) s
      = Ok k ->
      k = bn + n.
Proof.
  induction n as [|n IH]; intros block bn s Hbn Hle.
  - simpl. rewrite Nat.add_0_r, Nat.sub_diag.
    split; [now split | now intros k [= <-]].
  - cbn [seq for_fold].
    destruct (verify_block_verified page block bn s Hbn) as [Hv Hk]; [lia|].
    assert (IH' := fun s' => IH (S block) (bn + 1) s' ltac:(lia) ltac:(lia)).
    replace (bn + S n) with (bn + 1 + n) by lia.
    split.
    + apply verified_bind with (mid := bn + 1); [lia | exact Hv |].
      intros bn' Hbn'. apply Hk in Hbn'. subst bn'. apply IH'.
    + intros k. rewrite result_of_bind.
      destruct (result_of (verify_block h data page block bn) s)
        as [bn'| |] eqn:Hr; try discriminate.
      specialize (Hk bn' eq_refl). subst bn'. apply IH'.
Qed.

Lemma verify_page_verified (page bn : nat) (s : state W) :
  bn = page * 8 ->
  verified data bn (bn + 8)
    (result_of (verify_page h data page bn) s)
    (trace_of (verify_page h data page bn) s) /\
  forall k, result_of (verify_page h data page bn) s = Ok k -> k = bn + 8.
Proof.
  intros Hbn. unfold verify_page. split.
  - apply verified_bind with (mid := bn); [lia | |intros _ _].
    { apply verified_call. reflexivity. }
    apply verified_bind with (mid := bn); [lia | |intros _ _].
    { apply verified_call. reflexivity. }
    apply (verify_blocks_verified page 8 0 bn); lia.
  - intros k. rewrite !result_of_bind.
    destruct (result_of (write _ _ _ _) s); try discriminate.
    destruct (result_of (read _ _ _ _) _); try discriminate.
    apply (verify_blocks_verified page 8 0 bn); lia.
Qed.

Lemma verify_pages_from (n : nat) :
  forall page bn (s : state W),
    bn = page * 8 ->
    verified data bn (bn + n * 8)
      (result_of (for_fold (seq page n) (verify_page h data) bn) s)
      (trace_of (for_fold (seq page n) (verify_page h data) bn) s).
Proof.
  induction n as [|n IH]; intros page bn s Hbn.
  - simpl. rewrite Nat.add_0_r, Nat.sub_diag. now split.
  - cbn [seq for_fold].
    destruct (verify_page_verified page bn s Hbn) as [Hv Hk].
    apply verified_bind with (mid := bn + 8); [lia | exact Hv |].
    intros bn' Hbn'. apply Hk in Hbn'. subst bn'.
    replace (bn + S n * 8) with (bn + 8 + n * 8) by lia.
    apply (IH (S page)). lia.
Qed.

Lemma verify_pages_verified (s : state W) :
  verified data 0 (page_count data * 8)
    (result_of (verify_pages h data) s) (trace_of (verify_pages h data) s).
Proof. exact (verify_pages_from (page_count data) 0 0 s eq_refl). Qed.

Lemma verify_block_ended (page block bn : nat) (s : state W) :
  ended_by (result_of (verify_block h data page block bn) s)
    (trace_of (verify_block h data page block bn) s).
Proof.
  unfold verify_block.
  apply ended_by_bind; [apply ended_by_write | intros _ _].
  apply ended_by_bind; [apply ended_by_read | intros block_read _].
  destruct (Bytes.eqb block_read _); constructor.
Qed.

Lemma verify_pages_ended (s : state W) :
  ended_by (result_of (verify_pages h data) s)
    (trace_of (verify_pages h data) s).
Proof.
  unfold verify_pages. apply ended_by_for_fold. intros page bn s' _.
  unfold verify_page.
  apply ended_by_bind; [apply ended_by_write | intros _ _].
  apply ended_by_bind; [apply ended_by_read | intros _ _].
  apply ended_by_for_fold. intros block bn' s'' _. apply verify_block_ended.
Qed.

End Verifying.

(** ** The two phases together *)

Section Flashing.

Context {W : Type} {T : Transport W}.

Variables (h : handle) (data : bytes).

Lemma verified_for_each {A} (n : nat) (xs : list A) (body : A -> M W unit) :
  (forall x s,
      In x xs ->
      verified data n n (result_of (body x) s) (trace_of (body x) s)) ->
  forall s,
    verified data n n (result_of (for_each xs body) s)
      (trace_of (for_each xs body) s).
Proof.
  induction xs as [|x xs IH]; intros Hbody s; simpl.
  - rewrite Nat.sub_diag. now split.
  - apply verified_bind with (mid := n); [lia | |intros _ _].
    + apply Hbody. now left.
    + apply IH. intros y s' Hy. apply Hbody. now right.
Qed.

Lemma verified_ret {A} (n : nat) (a : A) (s : state W) :
  verified data n n (result_of (ret a) s) (trace_of (ret a) s).
Proof. simpl. rewrite Nat.sub_diag. now split. Qed.

Lemma write_pages_verify_nothing (s : state W) :
  verified data 0 0 (result_of (write_pages h data) s)
    (trace_of (write_pages h data) s).
Proof.
  unfold write_pages. apply verified_for_each.
  intros page s' Hpage. apply in_seq in Hpage. unfold write_page.
  apply verified_bind with (mid := 0); [lia | |intros _ _].
  { apply verified_call. reflexivity. }
  apply verified_bind with (mid := 0); [lia | |intros _ _].
  { apply verified_call. reflexivity. }
  apply verified_for_each. intros block s'' Hblock. apply in_seq in Hblock.
  unfold write_block.
  apply verified_bind with (mid := 0); [lia | |intros _ _].
  { apply verified_call. intros r. apply no_verify_command_no_request.
    apply long_write_is_no_verify_command.
    rewrite block_write_length by lia. discriminate. }
  apply verified_bind with (mid := 0); [lia | |intros _ _].
  { apply verified_call. reflexivity. }
  apply verified_ret.
Qed.

Lemma flash_verified (s : state W) :
  verified data 0 (page_count data * 8)
    (result_of (flash h data) s) (trace_of (flash h data) s).
Proof.
  unfold flash.
  apply verified_bind with (mid := 0); [lia | |intros _ _].
  { apply write_pages_verify_nothing. }
  apply verified_bind with (mid := page_count data * 8); [lia | |intros _ _].
  { apply verify_pages_verified. }
  apply verified_ret.
Qed.

Lemma flash_ended (s : state W) :
  ended_by (result_of (flash h data) s) (trace_of (flash h data) s).
Proof.
  unfold flash.
  apply ended_by_bind; [apply write_pages_ended | intros _ _].
  apply ended_by_bind; [apply verify_pages_ended | intros _ _].
  constructor.
Qed.

Lemma trace_of_bind_prefix {A B} (m : M W A) (f : A -> M W B) (s : state W) :
  exists rest, trace_of (bind m f) s = trace_of m s ++ rest.
Proof.
  rewrite trace_of_bind. destruct (result_of m s).
  - eexists. reflexivity.
  - exists []. now rewrite app_nil_r.
  - exists []. now rewrite app_nil_r.
Qed.

(** Every call of the two phases is a transfer on [h], and is given
    [usb_timeout], but for the writes of [[0x02, page]]. *)
Lemma flash_transfers (s : state W) :
  Forall
    (fun e =>
       user e = Some h /\
       (transfer_timeout e = Some (Some usb_timeout) \/
        exists page r, e = EvWrite h 0x01 [0x02%Z; Z.of_nat page] None r))
    (trace_of (flash h data) s).
Proof.
  unfold flash.
  apply trace_Forall_bind; [|intros _ _].
  { unfold write_pages. apply trace_Forall_for_each. intros page s' _.
    unfold write_page.
    apply trace_Forall_bind; [|intros _ _].
    { apply trace_Forall_write. intros r.
      split; [reflexivity | right; now exists page, r]. }
    apply trace_Forall_bind; [|intros _ _].
    { apply trace_Forall_read. now split; [|left]. }
    apply trace_Forall_for_each. intros block s'' _. unfold write_block.
    apply trace_Forall_bind; [|intros _ _].
    { apply trace_Forall_write. now split; [|left]. }
    apply trace_Forall_bind; [|intros _ _].
    { apply trace_Forall_read. now split; [|left]. }
    constructor. }
  apply trace_Forall_bind; [|intros _ _; constructor].
  unfold verify_pages. apply trace_Forall_for_fold. intros page bn s' _.
  unfold verify_page.
  apply trace_Forall_bind; [|intros _ _].
  { apply trace_Forall_write. now split; [|left]. }
  apply trace_Forall_bind; [|intros _ _].
  { apply trace_Forall_read. now split; [|left]. }
  apply trace_Forall_for_fold. intros block bn' s'' _. unfold verify_block.
  apply trace_Forall_bind; [|intros _ _].
  { apply trace_Forall_write. now split; [|left]. }
  apply trace_Forall_bind; [|intros block_read _].
  { apply trace_Forall_read. now split; [|left]. }
  destruct (Bytes.eqb block_read _); constructor.
Qed.

Lemma flash_timeouts (s : state W) :
  Forall
    (fun e =>
       transfer_timeout e = Some (Some usb_timeout) \/
       exists page r, e = EvWrite h 0x01 [0x02%Z; Z.of_nat page] None r)
    (trace_of (flash h data) s).
Proof.
  eapply Forall_impl; [|apply flash_transfers]. now intros e [_ He].
Qed.

End Flashing.

(** ** The life of a device object *)

Section Monitor.

Lemma steps_app (m m1 m2 : monitor) (t1 t2 : trace) :
  steps m t1 m1 -> steps m1 t2 m2 -> steps m (t1 ++ t2) m2.
Proof.
  induction 1 as [m|m e m' tr m1 Hstep _ IH]; intros H2; [exact H2|].
  simpl. econstructor; [exact Hstep | now apply IH].
Qed.

Lemma steps_app_inv (t1 t2 : trace) :
  forall m m2,
    steps m (t1 ++ t2) m2 -> exists m1, steps m t1 m1 /\ steps m1 t2 m2.
Proof.
  induction t1 as [|e t1 IH]; intros m m2 H.
  - exists m. split; [constructor | exact H].
  - inversion H as [|? ? m' ? ? Hstep Hrest]; subst.
    destruct (IH _ _ Hrest) as (m1 & H1 & H2).
    exists m1. split; [econstructor; eassumption | exact H2].
Qed.

(** Calls on objects found before do not move the check. *)
Lemma steps_uses (n : nat) (tr : trace) :
  Forall (fun e => exists h, user e = Some h /\ obj h < n) tr ->
  steps (Monitor n None) tr (Monitor n None).
Proof.
  induction 1 as [|e tr (h & Hu & Hn) _ IH]; [constructor|].
  econstructor; [|exact IH]. now apply step_use with h.
Qed.

Lemma step_settled (m m' : monitor) (e : event) :
  step m e m' -> settled m -> settled m'.
Proof.
  intros Hstep Hm.
  destruct Hstep; intros h' Hp; simpl in *; try discriminate.
  injection Hp as <-. lia.
Qed.

Lemma step_grows (m m' : monitor) (e : event) :
  step m e m' -> fresh m <= fresh m'.
Proof. destruct 1; simpl; lia. Qed.

Lemma step_subject (m m' : monitor) (e : event) (h : handle) :
  step m e m' -> settled m -> subject e = Some h -> obj h < fresh m'.
Proof.
  intros Hstep Hm Hs.
  destruct Hstep
    as [n v p h0 Hn Hp|n v h0 Hn|n h0 r|n v p|n v p x|n e h0 Hu Hn];
    simpl in *; try discriminate.
  - injection Hs as <-. lia.
  - injection Hs as <-. lia.
  - injection Hs as <-. apply (Hm h0 eq_refl).
  - destruct e; simpl in *; try discriminate; congruence.
Qed.

Lemma steps_settled (m m' : monitor) (tr : trace) :
  steps m tr m' -> settled m -> settled m'.
Proof.
  induction 1 as [m|m e m1 tr m2 Hstep _ IH]; intros Hm; [exact Hm|].
  apply IH. eapply step_settled; eassumption.
Qed.

Lemma steps_grow (m m' : monitor) (tr : trace) :
  steps m tr m' -> fresh m <= fresh m'.
Proof.
  induction 1 as [m|m e m1 tr m2 Hstep _ IH]; [lia|].
  apply step_grows in Hstep. lia.
Qed.

(** Every object of an accepted trace is below the last [fresh]. *)
Lemma steps_subjects (m m' : monitor) (tr : trace) :
  steps m tr m' -> settled m ->
  Forall (fun e => forall h, subject e = Some h -> obj h < fresh m') tr.
Proof.
  induction 1 as [m|m e m1 tr m2 Hstep Hrest IH]; intros Hm; [constructor|].
  constructor.
  - intros h Hs. pose proof (step_subject _ _ _ h Hstep Hm Hs).
    apply steps_grow in Hrest. lia.
  - apply IH. eapply step_settled; eassumption.
Qed.

(** An object below [fresh] that is not pending is not configured
    again. *)
Lemma steps_configure_once (h : handle) (m m' : monitor) (tr : trace) :
  steps m tr m' ->
  obj h < fresh m ->
  (forall p, pending m = Some p -> obj h < obj p) ->
  Forall (fun e => forall r, e <> EvSetConfiguration h r) tr.
Proof.
  induction 1 as [m|m e m1 tr m2 Hstep _ IH]; intros Hlt Hp; [constructor|].
  constructor.
  - intros r ->. inversion Hstep; subst; simpl in *.
    + specialize (Hp h eq_refl). lia.
    + discriminate.
  - apply IH.
    + apply step_grows in Hstep. lia.
    + destruct Hstep; simpl in *; intros q Hq; try discriminate.
      injection Hq as <-. lia.
Qed.

(** The claim about [set_configuration], on any accepted trace. *)
Lemma steps_bootloader_found (m m' : monitor) (tr pre post : trace) (v : Z)
  (h : handle) :
  steps m tr m' ->
  settled m ->
  pending m' = None ->
  tr = pre ++ EvFind v 0x0101 (Done (Some h)) :: post ->
  exists r post',
    post = EvSetConfiguration h r :: post' /\
    Forall (fun e => subject e <> Some h) pre /\
    Forall (fun e => forall r', e <> EvSetConfiguration h r') post'.
Proof.
  intros Hsteps Hm Hend ->.
  apply steps_app_inv in Hsteps. destruct Hsteps as (m1 & Hpre & Hrest).
  inversion Hrest as [|? ? m2 ? ? Hfind Hpost]; subst.
  assert (Hbound : fresh m1 <= obj h /\ m2 = Monitor (S (obj h)) (Some h)).
  { inversion Hfind; subst; simpl in *; try discriminate.
    - congruence.
    - now split. }
  destruct Hbound as [Hbound ->].
  inversion Hpost as [|? e m3 post' ? Hconf Hpost']; subst.
  { simpl in Hend. discriminate. }
  inversion Hconf; subst; simpl in *; try discriminate.
  exists r, post'. split; [reflexivity|]. split.
  - pose proof (steps_subjects _ _ _ Hpre Hm) as Hsub.
    eapply Forall_impl; [|exact Hsub].
    intros e He Heq. specialize (He h Heq). lia.
  - eapply steps_configure_once; [exact Hpost' | simpl; lia |].
    simpl. discriminate.
Qed.

End Monitor.

(** ** The script keeps to it *)

Ltac accept_step :=
  first
    [ apply step_found_bootloader; simpl; lia
    | apply step_found; [simpl; lia | assumption]
    | apply step_configure
    | apply step_absent
    | apply step_lookup_failed
    | eapply step_use; [reflexivity | simpl; lia] ].

Ltac accept :=
  repeat first [apply steps_nil | eapply steps_cons; [accept_step|]].

Section Discipline.

Context {W : Type} {T : Transport W}.

Lemma disciplined_bind {A B} (m : M W A) (f : A -> M W B) (s : state W) :
  disciplined m s ->
  (forall a,
      result_of m s = Ok a -> tidy (state_of m s) ->
      disciplined (f a) (state_of m s)) ->
  disciplined (bind m f) s.
Proof.
  intros [Hm Ht] Hf. unfold disciplined.
  rewrite trace_of_bind, state_of_bind.
  destruct (result_of m s) as [a|e|]; try (now split).
  destruct (Hf a eq_refl Ht) as [Hfa Hta].
  split; [eapply steps_app; eassumption | exact Hta].
Qed.

Lemma accepted_bind {A B} (m : M W A) (f : A -> M W B) (s : state W) :
  disciplined m s ->
  (forall a,
      result_of m s = Ok a -> tidy (state_of m s) ->
      accepted (f a) (state_of m s)) ->
  accepted (bind m f) s.
Proof.
  intros [Hm Ht] Hf. unfold accepted. rewrite trace_of_bind.
  destruct (result_of m s) as [a|e|];
    try (eexists; split; [exact Hm | reflexivity]).
  destruct (Hf a eq_refl Ht) as (m' & Hfa & Hp).
  exists m'. split; [eapply steps_app; eassumption | exact Hp].
Qed.

Lemma ret_disciplined {A} (a : A) (s : state W) :
  tidy s -> disciplined (ret a) s.
Proof. intros Ht. split; [constructor | exact Ht]. Qed.

Lemma time_disciplined (s : state W) : tidy s -> disciplined time s.
Proof.
  intros Ht. unfold disciplined, trace_of, state_of, time.
  destruct (time_time (world s)) as [t w]. simpl.
  split; [constructor | exact Ht].
Qed.

Lemma jump_disciplined (product_id : Z) (s : state W) :
  product_id <> 0x0101%Z -> tidy s -> disciplined (jump product_id) s.
Proof.
  intros Hid Ht.
  unfold disciplined, tidy, trace_of, state_of, jump, try_except, bind, find,
    assign_dongle, write, ctrl_transfer, dispose_resources, reset, call, ret.
  destruct (product_id =? 0x0102)%Z; split_calls;
    (split; [accept | simpl; intros h' Hh'; try discriminate]);
    try (injection Hh' as <-; simpl; lia);
    now apply Ht.
Qed.

Lemma enter_bootloader_disciplined (s : state W) :
  tidy s -> disciplined enter_bootloader s.
Proof.
  intros Ht. unfold enter_bootloader, product_ids, for_each.
  apply disciplined_bind; [now apply jump_disciplined | intros _ _ Ht1].
  apply disciplined_bind; [now apply jump_disciplined | intros _ _ Ht2].
  now apply ret_disciplined.
Qed.

Lemma poll_body_disciplined (s : state W) :
  tidy s -> disciplined poll_body s.
Proof.
  intros Ht.
  unfold disciplined, tidy, trace_of, state_of, poll_body, try_except, bind,
    find, assign_dongle, set_configuration, call, ret.
  split_calls;
    try match goal with
        | x : usb_exn |- _ => destruct x
        end;
    reduce_run;
    (split; [accept | simpl; intros h' Hh'; try discriminate]);
    try (injection Hh' as <-; simpl; lia);
    now apply Ht.
Qed.

Lemma poll_disciplined (fuel : nat) (start : timestamp) :
  forall s : state W, tidy s -> disciplined (poll fuel start) s.
Proof.
  induction fuel as [|fuel IH]; intros s Ht.
  - split; [constructor | exact Ht].
  - cbn [poll].
    apply disciplined_bind; [now apply time_disciplined | intros now _ Ht1].
    destruct (less_than_a_second now start); [|now apply ret_disciplined].
    apply disciplined_bind; [now apply poll_body_disciplined | intros c _ Ht2].
    destruct c; [now apply ret_disciplined | now apply IH].
Qed.

Lemma find_bootloader_disciplined (fuel : nat) (s : state W) :
  tidy s -> disciplined (find_bootloader fuel) s.
Proof.
  intros Ht. unfold find_bootloader.
  apply disciplined_bind; [now apply time_disciplined | intros start _ Ht1].
  now apply poll_disciplined.
Qed.

Lemma check_dongle_disciplined (s : state W) :
  tidy s -> disciplined check_dongle s.
Proof.
  intros Ht. unfold disciplined, trace_of, state_of, check_dongle.
  destruct (dongle s) as [|[h|]]; simpl; (split; [constructor | exact Ht]).
Qed.

Lemma check_dongle_found (s : state W) (h : handle) :
  result_of check_dongle s = Ok h ->
  dongle s = Bound (Some h) /\ state_of check_dongle s = s.
Proof.
  unfold result_of, state_of, check_dongle.
  destruct (dongle s) as [|[h'|]]; simpl; try discriminate.
  now intros [= ->].
Qed.

Lemma flash_accepted (h : handle) (data : bytes) (s : state W) :
  obj h < next_obj s -> accepted (flash h data) s.
Proof.
  intros Hh. exists (Monitor (next_obj s) None). split; [|reflexivity].
  apply steps_uses.
  eapply Forall_impl; [|apply flash_transfers].
  intros e [He _]. now exists h.
Qed.

Lemma main_accepted (fuel : nat) (firmware : bytes) (s : state W) :
  tidy s -> accepted (main fuel firmware) s.
Proof.
  intros Ht. unfold main.
  apply accepted_bind;
    [now apply enter_bootloader_disciplined | intros _ _ Ht1].
  apply accepted_bind;
    [now apply find_bootloader_disciplined | intros _ _ Ht2].
  apply accepted_bind;
    [now apply check_dongle_disciplined | intros h Hh Ht3].
  apply check_dongle_found in Hh. destruct Hh as [Hh Hs].
  rewrite Hs. apply flash_accepted. now apply Ht2.
Qed.

End Discipline.

(** ** The script on the simulated dongle *)

Section Scenario.

(** A 1000-byte image pads to 1024 bytes, two pages. *)
Example image_of_1000_bytes :
  length (pad (Sim.image 1000)) = 1024 /\ page_count (pad (Sim.image 1000)) = 2.
Proof. split; vm_compute; reflexivity. Qed.

(** The whole script, with both application firmwares attached: it ends
    without exception after 12 calls to find the bootloader, 2 page
    headers, 16 block writes and their 18 acknowledgements, and 2 verify
    headers with their acknowledgements and 16 blocks asked for and read
    back, with the indices 0 to 15. *)
Example script_on_a_faithful_dongle :
  let run := main 20 (Sim.image 1000) in
  result_of run (initial Sim.both_attached) = Ok tt /\
  length (trace_of run (initial Sim.both_attached)) = 12 + 36 + 36 /\
  verify_indices (trace_of run (initial Sim.both_attached))
  = map Z.of_nat (seq 0 16).
Proof. repeat split; vm_compute; reflexivity. Qed.

(** With no dongle at all the polling loop gives up when the clock says
    so, well within its fuel, and the script raises. *)
Example script_without_a_dongle :
  result_of (main 20 (Sim.image 1000)) (initial Sim.absent)
  = Raise NoCompatibleDevice /\
  lookups (trace_of (main 20 (Sim.image 1000)) (initial Sim.absent))
  = [(0x1915, 0x0102); (0x1915, 0x7777)]%Z ++ repeat (0x1915, 0x0101)%Z 9.
Proof. split; vm_compute; reflexivity. Qed.

End Scenario.

(** ** Fuel *)

Section Fuel.

Context {W : Type} {T : Transport W}.

(** A run of the polling loop that ends within its fuel is the same run
    with any more fuel. *)
Lemma poll_more_fuel (start : timestamp) (extra : nat) :
  forall (fuel : nat) (s : state W),
    result_of (poll fuel start) s <> OutOfFuel ->
    poll (fuel + extra) start s = poll fuel start s.
Proof.
  induction fuel as [|fuel IH]; intros s Hend.
  - now contradiction Hend.
  - revert Hend. cbn [poll Nat.add]. unfold result_of, bind at 1 3 5.
    destruct (time s) as [[[now| |] s1] t1]; try reflexivity.
    destruct (less_than_a_second now start); [|reflexivity].
    unfold bind at 1 2 3.
    destruct (poll_body s1) as [[[[|]| |] s2] t2]; try reflexivity.
    intros Hend. rewrite IH; [reflexivity|].
    unfold result_of. intros Hout. apply Hend.
    destruct (poll fuel start s2) as [[r s3] t3]. simpl in *. now subst r.
Qed.

Lemma bind_agree {A B} (m : M W A) (f g : A -> M W B) (s : state W) :
  (forall a, result_of m s = Ok a -> f a (state_of m s) = g a (state_of m s)) ->
  bind m f s = bind m g s.
Proof.
  unfold result_of, state_of, bind.
  destruct (m s) as [[[a| |] s1] t1]; simpl; intros Hfg; try reflexivity.
  now rewrite Hfg.
Qed.

Lemma find_bootloader_more_fuel (fuel extra : nat) (s : state W) :
  result_of (find_bootloader fuel) s <> OutOfFuel ->
  find_bootloader (fuel + extra) s = find_bootloader fuel s.
Proof.
  unfold find_bootloader. rewrite result_of_bind. intros Hend.
  apply bind_agree. intros start Hstart. rewrite Hstart in Hend.
  now apply poll_more_fuel.
Qed.

Lemma main_more_fuel (firmware : bytes) (fuel extra : nat) (s : state W) :
  result_of (main fuel firmware) s <> OutOfFuel ->
  main (fuel + extra) firmware s = main fuel firmware s.
Proof.
  unfold main. rewrite result_of_bind. intros Hend.
  apply bind_agree. intros u Hu. rewrite Hu in Hend.
  rewrite result_of_bind in Hend.
  unfold bind at 1 3. rewrite find_bootloader_more_fuel; [reflexivity|].
  intros Hout. rewrite Hout in Hend. now apply Hend.
Qed.

End Fuel.

(** ** The script reaches the two phases on the bootloader *)

Section Main.

Context {W : Type} {T : Transport W}.

(** When the polling loop ends and leaves a device in [dongle], the rest
    of the script is the two phases on that device, on the padded image. *)
Lemma main_flashes (fuel : nat) (firmware : bytes) (s : state W) (h : handle) :
  let s1 := state_of enter_bootloader s in
  let s2 := state_of (find_bootloader fuel) s1 in
  result_of (find_bootloader fuel) s1 = Ok tt ->
  dongle s2 = Bound (Some h) ->
  result_of (main fuel firmware) s = result_of (flash h (pad firmware)) s2 /\
  trace_of (main fuel firmware) s
  = trace_of enter_bootloader s ++ trace_of (find_bootloader fuel) s1
    ++ trace_of (flash h (pad firmware)) s2.
Proof.
  intros s1 s2 Hfound Hdongle. unfold main.
  rewrite result_of_bind, trace_of_bind, enter_bootloader_returns.
  fold s1. rewrite result_of_bind, trace_of_bind, Hfound. fold s2.
  assert (Hcheck : check_dongle s2 = (Ok h, s2, [])).
  { unfold check_dongle. now rewrite Hdongle. }
  assert (Hr : result_of check_dongle s2 = Ok h)
    by (unfold result_of; now rewrite Hcheck).
  assert (Hs : state_of check_dongle s2 = s2)
    by (unfold state_of; now rewrite Hcheck).
  assert (Ht : trace_of check_dongle s2 = [])
    by (unfold trace_of; now rewrite Hcheck).
  rewrite result_of_bind, trace_of_bind, Hr, Hs, Ht.
  split; reflexivity.
Qed.

End Main.

(** ** Slices that follow one another *)

Section Chunks.

Variable data : bytes.

Lemma firstn_add {X} (a b : nat) (l : list X) :
  firstn (a + b) l = firstn a l ++ firstn b (skipn a l).
Proof.
  revert l. induction a as [|a IH]; intros l; [reflexivity|].
  destruct l as [|x l]; simpl.
  - now rewrite firstn_nil.
  - now rewrite IH.
Qed.

Lemma slice_from_start (n : nat) : Bytes.slice data 0 n = firstn n data.
Proof. unfold Bytes.slice. now rewrite Nat.sub_0_r. Qed.

Lemma slice_next (a b c : nat) :
  a <= b <= c ->
  Bytes.slice data a b ++ Bytes.slice data b c = Bytes.slice data a c.
Proof.
  intros Hle. unfold Bytes.slice.
  replace (c - a) with ((b - a) + (c - b)) by lia.
  rewrite firstn_add, skipn_skipn.
  now replace (b - a + a) with b by lia.
Qed.

(** [count] slices of [size] bytes from [base] on make one slice. *)
Lemma chunks (size base : nat) :
  forall count,
    flat_map
      (fun i => Bytes.slice data (base + i * size) (base + i * size + size))
      (seq 0 count)
    = Bytes.slice data base (base + count * size).
Proof.
  induction count as [|count IH].
  - simpl. unfold Bytes.slice. now rewrite Nat.add_0_r, Nat.sub_diag.
  - rewrite seq_S, flat_map_app, IH. simpl. rewrite app_nil_r.
    replace (base + count * size + size) with (base + (size + count * size))
      by lia.
    apply slice_next. lia.
Qed.

Lemma to_ints_app (x y : bytes) :
  Bytes.to_ints (x ++ y) = Bytes.to_ints x ++ Bytes.to_ints y.
Proof. apply map_app. Qed.

Lemma to_ints_flat_map {X} (f : X -> bytes) (l : list X) :
  flat_map (fun x => Bytes.to_ints (f x)) l = Bytes.to_ints (flat_map f l).
Proof.
  induction l as [|x l IH]; [reflexivity|].
  simpl. now rewrite to_ints_app, IH.
Qed.

End Chunks.

(** ** What a run adds to a reading of its trace *)

Section Emits.

Context {W : Type} {X : Type} (f : event -> list X).

Lemma prefix_of_refl (l : list X) : prefix_of l l.
Proof. exists []. apply app_nil_r. Qed.

Lemma prefix_of_nil (l : list X) : prefix_of [] l.
Proof. now exists l. Qed.

Lemma prefix_of_app (l l1 l2 : list X) :
  prefix_of l1 l2 -> prefix_of (l ++ l1) (l ++ l2).
Proof. intros [rest <-]. exists rest. now rewrite app_assoc. Qed.

Lemma prefix_of_longer (l l1 l2 : list X) :
  prefix_of l l1 -> prefix_of l (l1 ++ l2).
Proof. intros [rest <-]. exists (rest ++ l2). now rewrite app_assoc. Qed.

Lemma emits_bind {A B} (m : M W A) (k : A -> M W B) (s : state W) :
  flat_map f (trace_of (bind m k) s)
  = flat_map f (trace_of m s)
    ++ match result_of m s with
       | Ok a => flat_map f (trace_of (k a) (state_of m s))
       | _ => []
       end.
Proof.
  rewrite trace_of_bind. destruct (result_of m s).
  - apply flat_map_app.
  - now rewrite app_nil_r.
  - now rewrite app_nil_r.
Qed.

Lemma emits_nothing (tr : trace) :
  Forall (fun e => f e = []) tr -> flat_map f tr = [].
Proof.
  induction 1 as [|e tr He _ IH]; [reflexivity|].
  simpl. now rewrite He, IH.
Qed.

Lemma for_each_emits {A} (g : A -> list X) (xs : list A)
  (body : A -> M W unit) :
  (forall x s,
      In x xs ->
      prefix_of (flat_map f (trace_of (body x) s)) (g x) /\
      (result_of (body x) s = Ok tt ->
       flat_map f (trace_of (body x) s) = g x)) ->
  forall s,
    prefix_of (flat_map f (trace_of (for_each xs body) s)) (flat_map g xs) /\
    (result_of (for_each xs body) s = Ok tt ->
     flat_map f (trace_of (for_each xs body) s) = flat_map g xs).
Proof.
  induction xs as [|x xs IH]; intros Hbody s.
  - split; [apply prefix_of_refl | reflexivity].
  - cbn [for_each flat_map]. rewrite emits_bind, result_of_bind.
    destruct (Hbody x s (or_introl eq_refl)) as [Hpre Hok].
    destruct (result_of (body x) s) as [[]| |].
    + rewrite (Hok eq_refl).
      destruct (IH (fun y s' Hy => Hbody y s' (or_intror Hy))
                  (state_of (body x) s)) as [IHpre IHok].
      split; [now apply prefix_of_app|].
      intros Hr. now rewrite (IHok Hr).
    + rewrite app_nil_r. split; [now apply prefix_of_longer | discriminate].
    + rewrite app_nil_r. split; [now apply prefix_of_longer | discriminate].
Qed.

End Emits.

(** ** What the write loop sends *)

Section Sending.

Context {W : Type} {T : Transport W}.

Variables (h : handle) (data : bytes).

Lemma call_emits {X A} (f : event -> list X) (g : W -> reply A * W)
  (ev : reply A -> event) (s : state W) :
  flat_map f (trace_of (call g ev) s) = f (ev (fst (g (world s)))).
Proof. rewrite call_trace. simpl. apply app_nil_r. Qed.

Lemma read_emits_nothing {X} (f : event -> list X) ep size t (s : state W) :
  (forall r, f (EvRead h ep size t r) = []) ->
  flat_map f (trace_of (read h ep size t) s) = [].
Proof. intros Hf. unfold read. rewrite call_emits. apply Hf. Qed.

Lemma write_emits_nothing {X} (f : event -> list X) ep d t (s : state W) :
  (forall r, f (EvWrite h ep d t r) = []) ->
  flat_map f (trace_of (write h ep d t) s) = [].
Proof. intros Hf. unfold write. rewrite call_emits. apply Hf. Qed.

Lemma write_block_sent (page block : nat) (s : state W) :
  page < page_count data -> block < 8 ->
  sent_data (trace_of (write_block h data page block) s)
  = Bytes.to_ints
      (Bytes.slice data (page * 512 + block * 64)
         (page * 512 + block * 64 + 64)).
Proof.
  intros Hp Hb. unfold sent_data, write_block.
  rewrite emits_bind. unfold write at 1. rewrite call_emits.
  cbn [block_payload]. rewrite block_write_length by assumption.
  cbn [Nat.eqb].
  destruct (result_of (write _ _ _ _) s); try apply app_nil_r.
  rewrite emits_bind, read_emits_nothing by reflexivity.
  destruct (result_of (read _ _ _ _) _); apply app_nil_r.
Qed.

Lemma write_page_sent (page : nat) (s : state W) :
  page < page_count data ->
  prefix_of (sent_data (trace_of (write_page h data page) s))
    (Bytes.to_ints (Bytes.slice data (page * 512) (page * 512 + 512))) /\
  (result_of (write_page h data page) s = Ok tt ->
   sent_data (trace_of (write_page h data page) s)
   = Bytes.to_ints (Bytes.slice data (page * 512) (page * 512 + 512))).
Proof.
  intros Hp. unfold sent_data, write_page.
  rewrite !emits_bind, !result_of_bind.
  rewrite (read_emits_nothing block_payload) by reflexivity.
  rewrite (write_emits_nothing block_payload) by reflexivity.
  cbn [app].
  destruct (result_of (write _ _ _ _) s);
    try (split; [apply prefix_of_nil | discriminate]).
  destruct (result_of (read _ _ _ _) _);
    try (split; [apply prefix_of_nil | discriminate]).
  assert (Hall :
            flat_map
              (fun block =>
                 Bytes.to_ints
                   (Bytes.slice data (page * 512 + block * 64)
                      (page * 512 + block * 64 + 64)))
              (range 8)
            = Bytes.to_ints
                (Bytes.slice data (page * 512) (page * 512 + 512))).
  { rewrite to_ints_flat_map. unfold range. now rewrite chunks. }
  rewrite <- Hall.
  apply (for_each_emits block_payload
           (fun block =>
              Bytes.to_ints
                (Bytes.slice data (page * 512 + block * 64)
                   (page * 512 + block * 64 + 64)))).
  intros block s' Hblock. apply in_seq in Hblock.
  fold (sent_data (trace_of (write_block h data page block) s')).
  rewrite write_block_sent by lia.
  split; [apply prefix_of_refl | reflexivity].
Qed.

Lemma pages_of_image :
  flat_map
    (fun page =>
       Bytes.to_ints (Bytes.slice data (page * 512) (page * 512 + 512)))
    (range (page_count data))
  = Bytes.to_ints (firstn (page_count data * 512) data).
Proof.
  rewrite to_ints_flat_map. unfold range.
  rewrite (chunks data 512 0). simpl. now rewrite slice_from_start.
Qed.

Lemma write_pages_sent (s : state W) :
  prefix_of (sent_data (trace_of (write_pages h data) s))
    (Bytes.to_ints (firstn (page_count data * 512) data)) /\
  (result_of (write_pages h data) s = Ok tt ->
   sent_data (trace_of (write_pages h data) s)
   = Bytes.to_ints (firstn (page_count data * 512) data)).
Proof.
  rewrite <- pages_of_image. unfold sent_data, write_pages.
  apply (for_each_emits block_payload
           (fun page =>
              Bytes.to_ints
                (Bytes.slice data (page * 512) (page * 512 + 512)))).
  intros page s' Hpage. apply in_seq in Hpage.
  apply write_page_sent. lia.
Qed.

Lemma write_page_headers (page : nat) (s : state W) :
  page < page_count data ->
  page_headers (trace_of (write_page h data page) s) = [Z.of_nat page].
Proof.
  intros Hp. unfold page_headers, write_page.
  rewrite emits_bind. unfold write at 1. rewrite call_emits.
  cbn [page_header Z.eqb Pos.eqb].
  assert (Hquiet : forall s',
             flat_map page_header
               (trace_of
                  (read h 129 64 (Some usb_timeout) ;;
                   for_each (range 8) (write_block h data page)) s')
             = []).
  { intros s'. apply emits_nothing.
    apply trace_Forall_bind; [|intros _ _].
    { apply trace_Forall_read. reflexivity. }
    apply trace_Forall_for_each. intros block s'' Hblock.
    apply in_seq in Hblock. unfold write_block.
    apply trace_Forall_bind; [|intros _ _].
    { apply trace_Forall_write. intros r.
      pose proof (block_write_length data page block Hp ltac:(lia)) as Hlen.
      destruct (Bytes.to_ints _) as [|a [|b [|c l]]]; try discriminate.
      reflexivity. }
    apply trace_Forall_bind; [|intros _ _; constructor].
    apply trace_Forall_read. reflexivity. }
  destruct (result_of (write _ _ _ _) s); [now rewrite Hquiet| |]; reflexivity.
Qed.

End Sending.

(** ** One write, one read *)

Section Duplex.

Context {W : Type} {T : Transport W}.

Variable h : handle.

Lemma exchanges_half_duplex (tr : trace) :
  exchanges h tr -> half_duplex h tr.
Proof. induction 1; constructor; assumption. Qed.

Lemma exchanges_app (t1 t2 : trace) :
  exchanges h t1 -> exchanges h t2 -> exchanges h (t1 ++ t2).
Proof. induction 1; intros H2; simpl; [|constructor]; auto. Qed.

Lemma half_duplex_app (t1 t2 : trace) :
  exchanges h t1 -> half_duplex h t2 -> half_duplex h (t1 ++ t2).
Proof. induction 1; intros H2; simpl; [|constructor]; auto. Qed.

Lemma duplex_failed {A} (r : result A) (tr : trace) :
  duplex h r tr -> half_duplex h tr.
Proof. destruct r; simpl; auto using exchanges_half_duplex. Qed.

Lemma duplex_app {A B} (a : A) (r : result B) (t1 t2 : trace) :
  duplex h (Ok a) t1 -> duplex h r t2 -> duplex h r (t1 ++ t2).
Proof.
  destruct r; simpl; auto using exchanges_app, half_duplex_app.
Qed.

Lemma duplex_bind {A B} (m : M W A) (k : A -> M W B) (s : state W) :
  duplex h (result_of m s) (trace_of m s) ->
  (forall a s', duplex h (result_of (k a) s') (trace_of (k a) s')) ->
  duplex h (result_of (bind m k) s) (trace_of (bind m k) s).
Proof.
  intros Hm Hk. rewrite result_of_bind, trace_of_bind.
  destruct (result_of m s) as [a| |]; try exact Hm.
  eapply duplex_app; [exact Hm | apply Hk].
Qed.

Lemma duplex_for_each {A} (xs : list A) (body : A -> M W unit) :
  (forall x s, duplex h (result_of (body x) s) (trace_of (body x) s)) ->
  forall s,
    duplex h (result_of (for_each xs body) s) (trace_of (for_each xs body) s).
Proof.
  intros Hbody. induction xs as [|x xs IH]; intros s; simpl.
  - constructor.
  - apply duplex_bind; [apply Hbody | intros _ s'; apply IH].
Qed.

Lemma duplex_for_fold {A S} (xs : list A) (body : A -> S -> M W S) :
  (forall x acc s,
      duplex h (result_of (body x acc) s) (trace_of (body x acc) s)) ->
  forall acc s,
    duplex h (result_of (for_fold xs body acc) s)
      (trace_of (for_fold xs body acc) s).
Proof.
  intros Hbody. induction xs as [|x xs IH]; intros acc s; simpl.
  - constructor.
  - apply duplex_bind; [apply Hbody | intros acc' s'; apply IH].
Qed.

(** A write, the read that answers it, and what comes next. *)
Lemma duplex_exchange {A} (d : list Z) (t t' : option Z)
  (k : bytes -> M W A) (s : state W) :
  (forall b s', duplex h (result_of (k b) s') (trace_of (k b) s')) ->
  duplex h
    (result_of (write h 0x01 d t ;; b <- read h 0x81 64 t' ;; k b) s)
    (trace_of (write h 0x01 d t ;; b <- read h 0x81 64 t' ;; k b) s).
Proof.
  intros Hk. rewrite !result_of_bind, !trace_of_bind.
  unfold write, read. rewrite !call_result, !call_trace.
  destruct (fst (device_write h 1 d t (world s))) as [a|x];
    cbn [answer]; [|constructor].
  destruct (fst (device_read h 129 64 t' _)) as [b|x];
    cbn [answer]; [|constructor].
  cbn [app].
  match goal with
  | |- duplex h (result_of (k b) ?s') _ => pose proof (Hk b s') as Hnext
  end.
  destruct (result_of (k b) _); simpl in *; constructor; assumption.
Qed.

Lemma flash_duplex (data : bytes) (s : state W) :
  duplex h (result_of (flash h data) s) (trace_of (flash h data) s).
Proof.
  unfold flash.
  apply duplex_bind; [|intros _ s1; apply duplex_bind].
  - unfold write_pages. apply duplex_for_each. intros page s'.
    unfold write_page. apply duplex_exchange. intros _ s''.
    apply duplex_for_each. intros block s3.
    unfold write_block. apply duplex_exchange. intros _ s4. constructor.
  - unfold verify_pages. apply duplex_for_fold. intros page bn s'.
    unfold verify_page. apply duplex_exchange. intros _ s''.
    apply duplex_for_fold. intros block bn' s3.
    unfold verify_block. apply duplex_exchange. intros b s4.
    destruct (Bytes.eqb b _); constructor.
  - intros _ s'. constructor.
Qed.

End Duplex.

(** ** What was read back *)

Section ReadBacks.

Variables (h : handle) (data : bytes).

Lemma read_backs_match (tr : trace) :
  exchanges h tr ->
  first_mismatch data tr = None ->
  read_backs tr
  = map
      (fun n =>
         (n, Bytes.slice data (Z.to_nat n * 64) (Z.to_nat n * 64 + 64)))
      (verify_indices tr).
Proof.
  induction 1 as [|d t a t' b rest _ IH]; [reflexivity|].
  cbn [first_mismatch read_backs verify_indices read_back].
  destruct (verify_request (EvWrite h 1 d t (Done a))) as [n|].
  - destruct (Bytes.eqb b _) eqn:Hb; [|discriminate].
    apply bytes_eqb_eq in Hb. subst b.
    cbn [verify_request map]. intros Hrest. f_equal. now apply IH.
  - cbn [verify_request]. exact IH.
Qed.

Lemma read_backs_skip_all (t1 t2 : trace) :
  Forall (fun e => verify_request e = None) t1 ->
  read_backs (t1 ++ t2) = read_backs t2.
Proof.
  induction 1 as [|e t1 He _ IH]; [reflexivity|].
  simpl. now rewrite He.
Qed.

Lemma blocks_of_image (n : nat) :
  flat_map snd
    (map
       (fun k =>
          (Z.of_nat k, Bytes.slice data (k * 64) (k * 64 + 64)))
       (seq 0 n))
  = firstn (n * 64) data.
Proof.
  rewrite flat_map_concat_map, map_map, <- flat_map_concat_map. cbn [snd].
  rewrite (chunks data 64 0). simpl. apply slice_from_start.
Qed.

End ReadBacks.

Section Success.

Context {W : Type} {T : Transport W}.

Variables (h : handle) (data : bytes).

Lemma verify_pages_send_nothing (s : state W) :
  sent_data (trace_of (verify_pages h data) s) = [].
Proof.
  apply emits_nothing. unfold verify_pages.
  apply trace_Forall_for_fold. intros page bn s' _. unfold verify_page.
  apply trace_Forall_bind; [|intros _ _].
  { apply trace_Forall_write. reflexivity. }
  apply trace_Forall_bind; [|intros _ _].
  { apply trace_Forall_read. reflexivity. }
  apply trace_Forall_for_fold. intros block bn' s'' _. unfold verify_block.
  apply trace_Forall_bind; [|intros _ _].
  { apply trace_Forall_write. reflexivity. }
  apply trace_Forall_bind; [|intros b _].
  { apply trace_Forall_read. reflexivity. }
  destruct (Bytes.eqb b _); constructor.
Qed.

Lemma flash_sent (s : state W) :
  sent_data (trace_of (flash h data) s)
  = sent_data (trace_of (write_pages h data) s).
Proof.
  unfold flash, sent_data at 1. rewrite emits_bind.
  destruct (result_of (write_pages h data) s); try apply app_nil_r.
  rewrite emits_bind. fold (sent_data (trace_of (verify_pages h data)
                                          (state_of (write_pages h data) s))).
  rewrite verify_pages_send_nothing.
  destruct (result_of (verify_pages h data) _); apply app_nil_r.
Qed.

Lemma flash_ok_writes (s : state W) :
  result_of (flash h data) s = Ok tt ->
  result_of (write_pages h data) s = Ok tt.
Proof.
  unfold flash. rewrite result_of_bind.
  destruct (result_of (write_pages h data) s) as [[]| |];
    [reflexivity | discriminate | discriminate].
Qed.

Lemma flash_read_backs (s : state W) :
  result_of (flash h data) s = Ok tt ->
  read_backs (trace_of (flash h data) s)
  = map
      (fun k => (Z.of_nat k, Bytes.slice data (k * 64) (k * 64 + 64)))
      (seq 0 (page_count data * 8)).
Proof.
  intros Hok.
  pose proof (flash_verified h data s) as Hv.
  pose proof (flash_duplex h data s) as Hd.
  rewrite Hok in Hv, Hd. simpl in Hv, Hd. destruct Hv as [Hi Hm].
  specialize (Hm []). rewrite app_nil_r in Hm. simpl in Hm.
  rewrite (read_backs_match h data _ Hd Hm), Hi, Nat.sub_0_r, map_map.
  apply map_ext. intros k. now rewrite Nat2Z.id.
Qed.

End Success.

(** ** The two searches, step by step *)

Section Searches.

Context {W : Type} {T : Transport W}.

Lemma jump_steps (product_id : Z) (s : state W) :
  jump_step product_id (dongle s) (dongle (state_of (jump product_id) s))
    (trace_of (jump product_id) s).
Proof.
  unfold trace_of, state_of, jump, try_except, bind, find, assign_dongle,
    write, ctrl_transfer, dispose_resources, reset, call, ret, usb_timeout.
  destruct (product_id =? 0x0102)%Z eqn:Hid; split_calls;
    try (constructor; fail);
    match goal with
    | |- jump_step _ _ _ (_ :: ?c :: _) =>
        match c with
        | EvWrite ?h _ _ _ ?r =>
            replace c with (entry_event product_id h r)
              by (unfold entry_event; rewrite Hid; reflexivity)
        | EvCtrl ?h _ _ _ _ _ _ ?r =>
            replace c with (entry_event product_id h r)
              by (unfold entry_event; rewrite Hid; reflexivity)
        end
    end;
    constructor; constructor.
Qed.

Lemma poll_body_steps (s : state W) :
  poll_step (dongle s) (result_of poll_body s)
    (dongle (state_of poll_body s)) (trace_of poll_body s).
Proof.
  unfold result_of, trace_of, state_of, poll_body, try_except, bind, find,
    assign_dongle, set_configuration, call, ret.
  split_calls;
    try match goal with
        | x : usb_exn |- _ => destruct x
        end;
    reduce_run; constructor; discriminate.
Qed.

Lemma bind_time_run {A} (k : timestamp -> M W A) (s : state W) :
  exists t s1,
    dongle s1 = dongle s /\
    next_obj s1 = next_obj s /\
    result_of (bind time k) s = result_of (k t) s1 /\
    state_of (bind time k) s = state_of (k t) s1 /\
    trace_of (bind time k) s = trace_of (k t) s1.
Proof.
  unfold result_of, state_of, trace_of, bind, time.
  destruct (time_time (world s)) as [t w].
  exists t, (State w (dongle s) (next_obj s)).
  destruct (k t _) as [[r s2] t2]. now repeat split.
Qed.

Lemma poll_polling (start : timestamp) :
  forall (fuel : nat) (s : state W),
    polling (dongle s) (result_of (poll fuel start) s)
      (dongle (state_of (poll fuel start) s)) (trace_of (poll fuel start) s).
Proof.
  induction fuel as [|fuel IH]; intros s; [constructor|].
  cbn [poll].
  match goal with
  | |- context [bind time ?k] =>
      destruct (bind_time_run k s) as (t & s1 & Hdongle & _ & -> & -> & ->)
  end.
  rewrite <- Hdongle.
  destruct (less_than_a_second t start); [|constructor].
  rewrite result_of_bind, state_of_bind, trace_of_bind.
  pose proof (poll_body_steps s1) as Hstep.
  destruct (result_of poll_body s1) as [[|]| |].
  - cbn [ret result_of state_of trace_of fst snd]. rewrite app_nil_r.
    now apply polling_break.
  - eapply polling_continue; [exact Hstep | apply IH].
  - now apply polling_fatal.
  - inversion Hstep.
Qed.

Lemma find_bootloader_polling (fuel : nat) (s : state W) :
  polling (dongle s) (result_of (find_bootloader fuel) s)
    (dongle (state_of (find_bootloader fuel) s))
    (trace_of (find_bootloader fuel) s).
Proof.
  unfold find_bootloader.
  destruct (bind_time_run (fun start => poll fuel start) s)
    as (t & s1 & Hdongle & _ & -> & -> & ->).
  rewrite <- Hdongle. apply poll_polling.
Qed.

End Searches.

(** ** Runs of the polling loop *)

Section Polling.

Lemma poll_step_only_polls v r v' tr :
  poll_step v r v' tr -> Forall (fun e => is_polling e = true) tr.
Proof. destruct 1; repeat constructor. Qed.

Lemma polling_only_polls v r v' tr :
  polling v r v' tr -> Forall (fun e => is_polling e = true) tr.
Proof.
  induction 1 as [v|v|v v' tr Hstep|v v' e tr Hstep
                 |v v1 t1 r v2 t2 Hstep _ IH];
    try constructor; eauto using poll_step_only_polls.
  apply Forall_app.
  split; [eapply poll_step_only_polls; eassumption | exact IH].
Qed.

Lemma poll_step_fatal v e v' tr :
  poll_step v (Raise e) v' tr ->
  exists x,
    e = TransportError x /\ x <> AttributeError /\
    exists pre ev, tr = pre ++ [ev] /\ failure ev = Some x.
Proof.
  inversion 1; subst; eexists; (split; [reflexivity|]); (split; [assumption|]).
  - exists []. eexists. split; reflexivity.
  - eexists [_], _. split; reflexivity.
Qed.

Lemma polling_fatal_last v e v' tr :
  polling v (Raise e) v' tr ->
  exists x,
    e = TransportError x /\ x <> AttributeError /\
    exists pre ev, tr = pre ++ [ev] /\ failure ev = Some x.
Proof.
  remember (Raise e) as r eqn:Hr. intros Hrun. revert e Hr.
  induction Hrun as [v|v|v v' tr Hstep|v v' e' tr Hstep
                    |v v1 t1 r v2 t2 Hstep _ IH]; intros e Hr;
    try discriminate.
  - injection Hr as ->. eapply poll_step_fatal; eassumption.
  - destruct (IH e Hr) as (x & He & Hx & pre & ev & -> & Hev).
    exists x. repeat split; try assumption.
    exists (t1 ++ pre), ev. now rewrite app_assoc.
Qed.



Lemma polling_finds_nothing v r v' tr :
  polling v r v' tr ->
  Forall finds_nothing tr ->
  (r = Ok tt \/ r = OutOfFuel) /\
  (v = Bound None -> v' = Bound None) /\
  Forall (fun e => is_find e = true) tr.
Proof.
  induction 1 as [v|v|v v' tr Hstep|v v' e tr Hstep
                 |v v1 t1 r v2 t2 Hstep _ IH]; intros Hall.
  - repeat split; auto.
  - repeat split; auto.
  - inversion Hstep; subst. inversion Hall as [|? ? Hnone _]. discriminate.
  - inversion Hstep; subst; inversion Hall as [|? ? Hnone _]; discriminate.
  - apply Forall_app in Hall. destruct Hall as [H1 H2].
    destruct (IH H2) as (Hr & Hv & Hfinds).
    inversion Hstep; subst; inversion H1 as [|? ? Hnone _];
      try discriminate.
    repeat split; auto. constructor; [reflexivity | exact Hfinds].
Qed.

Lemma polling_searching v r v' tr :
  polling v r v' tr -> Forall searching tr.
Proof.
  intros Hrun. eapply Forall_impl; [|eapply polling_only_polls; eassumption].
  intros [] He; simpl in He; try discriminate; now split.
Qed.

End Polling.

(** ** The variable [dongle] *)

Section Assigned.

Lemma assigned_app (t1 t2 : trace) (v : variable) :
  assigned (t1 ++ t2) v = assigned t2 (assigned t1 v).
Proof.
  revert v. induction t1 as [|e t1 IH]; intros v; [reflexivity|].
  destruct e as [? ? [r|x]| | | | | |]; simpl; apply IH.
Qed.

Lemma assigned_unanswered (tr : trace) (v : variable) :
  Forall (fun e => lookup_answered e = false) tr -> assigned tr v = v.
Proof.
  induction 1 as [|e tr He _ IH]; [reflexivity|].
  destruct e as [? ? [r|x]| | | | | |]; simpl in *; try discriminate;
    exact IH.
Qed.

Lemma released_assigned h c rest v :
  released h c rest -> assigned rest v = v.
Proof. destruct 1; reflexivity. Qed.

Lemma jump_step_assigned product_id v v' tr :
  jump_step product_id v v' tr -> v' = assigned tr v.
Proof.
  destruct 1 as [x| |h c rest Hrest]; try reflexivity.
  unfold entry_event. simpl.
  destruct (product_id =? 258)%Z; simpl;
    now rewrite (released_assigned _ _ _ _ Hrest).
Qed.

Lemma poll_step_assigned v r v' tr :
  poll_step v r v' tr -> v' = assigned tr v.
Proof. destruct 1; reflexivity. Qed.

Lemma polling_assigned v r v' tr :
  polling v r v' tr -> v' = assigned tr v.
Proof.
  induction 1 as [v|v|v v' tr Hstep|v v' e tr Hstep
                 |v v1 t1 r v2 t2 Hstep _ IH];
    try reflexivity; try (eapply poll_step_assigned; eassumption).
  rewrite assigned_app, IH. f_equal.
  eapply poll_step_assigned; eassumption.
Qed.

Lemma released_searching h c rest :
  released h c rest -> Forall searching rest.
Proof. destruct 1; repeat constructor. Qed.

Lemma jump_step_searching product_id v v' tr :
  jump_step product_id v v' tr -> Forall searching tr.
Proof.
  destruct 1 as [x| |h c rest Hrest]; try (repeat constructor; fail).
  constructor; [now split|]. constructor.
  - unfold entry_event. destruct (product_id =? 258)%Z; now split.
  - eapply released_searching; eassumption.
Qed.

End Assigned.

(** ** The whole script *)

Section WholeRun.

Context {W : Type} {T : Transport W}.

Lemma enter_bootloader_state (s : state W) :
  state_of enter_bootloader s
  = state_of (jump 0x7777) (state_of (jump 0x0102) s).
Proof.
  unfold enter_bootloader, product_ids, for_each.
  rewrite state_of_bind, jump_returns.
  rewrite state_of_bind, jump_returns.
  reflexivity.
Qed.

Lemma enter_bootloader_assigned (s : state W) :
  dongle (state_of enter_bootloader s)
  = assigned (trace_of enter_bootloader s) (dongle s).
Proof.
  rewrite enter_bootloader_state, enter_bootloader_trace, assigned_app.
  rewrite (jump_step_assigned _ _ _ _ (jump_steps 0x7777 _)).
  f_equal. apply (jump_step_assigned _ _ _ _ (jump_steps 0x0102 s)).
Qed.

Lemma enter_bootloader_searching (s : state W) :
  Forall searching (trace_of enter_bootloader s).
Proof.
  rewrite enter_bootloader_trace. apply Forall_app. split.
  - apply (jump_step_searching _ _ _ _ (jump_steps 0x0102 s)).
  - apply (jump_step_searching _ _ _ _ (jump_steps 0x7777 _)).
Qed.

Lemma check_dongle_runs (s : state W) :
  result_of check_dongle s
  = match dongle s with
    | Unbound => Raise NameError
    | Bound None => Raise NoCompatibleDevice
    | Bound (Some h) => Ok h
    end /\
  state_of check_dongle s = s /\
  trace_of check_dongle s = [].
Proof.
  unfold result_of, state_of, trace_of, check_dongle.
  destruct (dongle s) as [|[h|]]; repeat split.
Qed.

Lemma searches_assigned (fuel : nat) (s : state W) :
  dongle (searches_state fuel s) = assigned (searches_trace fuel s) (dongle s).
Proof.
  unfold searches_state, searches_trace.
  rewrite assigned_app, <- enter_bootloader_assigned.
  apply (polling_assigned _ _ _ _ (find_bootloader_polling fuel _)).
Qed.

Lemma searches_searching (fuel : nat) (s : state W) :
  Forall searching (searches_trace fuel s).
Proof.
  apply Forall_app. split; [apply enter_bootloader_searching|].
  apply (polling_searching _ _ _ _ (find_bootloader_polling fuel _)).
Qed.

Lemma main_cases (fuel : nat) (firmware : bytes) (s : state W) :
  match searches_result fuel s with
  | Ok _ =>
      match dongle (searches_state fuel s) with
      | Bound (Some h) =>
          result_of (main fuel firmware) s
          = result_of (flash h (pad firmware)) (searches_state fuel s) /\
          trace_of (main fuel firmware) s
          = searches_trace fuel s
            ++ trace_of (flash h (pad firmware)) (searches_state fuel s)
      | Bound None =>
          result_of (main fuel firmware) s = Raise NoCompatibleDevice /\
          trace_of (main fuel firmware) s = searches_trace fuel s
      | Unbound =>
          result_of (main fuel firmware) s = Raise NameError /\
          trace_of (main fuel firmware) s = searches_trace fuel s
      end
  | Raise e =>
      result_of (main fuel firmware) s = Raise e /\
      trace_of (main fuel firmware) s = searches_trace fuel s
  | OutOfFuel =>
      result_of (main fuel firmware) s = OutOfFuel /\
      trace_of (main fuel firmware) s = searches_trace fuel s
  end.
Proof.
  unfold searches_result, searches_state, searches_trace, main.
  rewrite result_of_bind, trace_of_bind, enter_bootloader_returns.
  set (s1 := state_of enter_bootloader s).
  rewrite result_of_bind, trace_of_bind.
  destruct (result_of (find_bootloader fuel) s1) as [[]| |];
    try (split; reflexivity).
  set (s2 := state_of (find_bootloader fuel) s1).
  destruct (check_dongle_runs s2) as (Hr & Hs & Ht).
  rewrite result_of_bind, trace_of_bind, Hr, Hs, Ht.
  destruct (dongle s2) as [|[h|]]; cbn [app];
    rewrite ?app_nil_r, <- ?app_assoc; split; reflexivity.
Qed.

End WholeRun.

Section WholeRunFacts.

Context {W : Type} {T : Transport W}.

Lemma main_trace_prefix (fuel : nat) (firmware : bytes) (s : state W) :
  exists rest,
    trace_of (main fuel firmware) s = searches_trace fuel s ++ rest.
Proof.
  pose proof (main_cases fuel firmware s) as Hcases.
  destruct (searches_result fuel s) as [u| |];
    [destruct (dongle (searches_state fuel s)) as [|[h|]]|..];
    destruct Hcases as [_ ->];
    try (exists []; now rewrite app_nil_r).
  eexists. reflexivity.
Qed.

Lemma jump_finds_nothing product_id v v' tr :
  jump_step product_id v v' tr ->
  Forall finds_nothing tr ->
  v' = Bound None /\ Forall (fun e => is_find e = true) tr.
Proof.
  destruct 1 as [x| |h c rest Hrest]; intros Hall;
    inversion Hall as [|? ? Hnone _]; try discriminate.
  split; [reflexivity | repeat constructor].
Qed.

Lemma enter_finds_nothing (s : state W) :
  Forall finds_nothing (trace_of enter_bootloader s) ->
  dongle (state_of enter_bootloader s) = Bound None /\
  Forall (fun e => is_find e = true) (trace_of enter_bootloader s).
Proof.
  rewrite enter_bootloader_trace, enter_bootloader_state.
  intros Hall. apply Forall_app in Hall. destruct Hall as [Ha Hb].
  destruct (jump_finds_nothing _ _ _ _ (jump_steps 0x0102 s) Ha) as [_ Hfa].
  destruct (jump_finds_nothing _ _ _ _ (jump_steps 0x7777 _) Hb) as [Hv Hfb].
  split; [exact Hv | apply Forall_app; now split].
Qed.




End WholeRunFacts.

(** * The claims *)

(** C1.  The claim is that an image of length [L] pads to length
    [L + (512 - L mod 512) mod 512], so that nothing is appended to an
    image whose length is a multiple of 512 already.  The script appends
    [512 - L mod 512] bytes: an image of 512 bytes comes out 1024 bytes
    long, with a whole page of zeros behind it, where the claim has 512. *)
Theorem pad_adds_a_page_to_an_aligned_image :
  length (Sim.image 512) = 512 /\
  length (pad (Sim.image 512)) = 1024 /\
  length (pad (Sim.image 512))
  <> length (Sim.image 512) + (512 - length (Sim.image 512) mod 512) mod 512 /\
  skipn 512 (pad (Sim.image 512)) = repeat x00 512.
Proof.
  assert (HL : length (Sim.image 512) = 512) by apply repeat_length.
  split; [exact HL|].
  split; [rewrite pad_aligned; rewrite HL; reflexivity|].
  split.
  - rewrite pad_aligned; rewrite HL; [|reflexivity]. discriminate.
  - rewrite <- HL at 1. rewrite pad_suffix, HL. reflexivity.
Qed.

Section ApplicationMode.

Context {W : Type} {T : Transport W}.

(** C7.  A device found under product ID 0x0102 is sent the single byte
    0xFF on endpoint 0x01; a device found under product ID 0x7777 is sent
    the control transfer (0x40, 0xFF, 0, 0) without data.  In both cases
    the command follows the lookup at once and is the only command, bulk
    or control, of that iteration. *)
Theorem entry_command_by_product_id :
  (forall (s : state W) (h : handle) (rest : trace),
      trace_of (jump 0x0102) s
      = EvFind 0x1915 0x0102 (Done (Some h)) :: rest ->
      exists r rest',
        rest = EvWrite h 0x01 [0xFF%Z] (Some 2500%Z) r :: rest' /\
        Forall (fun e => is_command e = false) rest') /\
  (forall (s : state W) (h : handle) (rest : trace),
      trace_of (jump 0x7777) s
      = EvFind 0x1915 0x7777 (Done (Some h)) :: rest ->
      exists r rest',
        rest = EvCtrl h 0x40 0xFF 0 0 None (Some 2500%Z) r :: rest' /\
        Forall (fun e => is_command e = false) rest').
Proof.
  split; intros s h rest Htr.
  - pose proof (jump_jumped 0x0102 s) as Hj. rewrite Htr in Hj.
    inversion Hj as [ | | h' r rest' Hrest]; subst.
    exists r, rest'. split; [reflexivity|].
    eapply Forall_impl; [|exact Hrest]. now intros e [He _].
  - pose proof (jump_jumped 0x7777 s) as Hj. rewrite Htr in Hj.
    inversion Hj as [ | | h' r rest' Hrest]; subst.
    exists r, rest'. split; [reflexivity|].
    eapply Forall_impl; [|exact Hrest]. now intros e [He _].
Qed.

(** C8.  Whatever is attached, the application-mode search looks up
    0x1915:0x0102 first and 0x1915:0x7777 second, and these are all its
    lookups. *)
Theorem application_a_is_looked_up_before_b (s : state W) :
  lookups (trace_of enter_bootloader s)
  = [(0x1915, 0x0102); (0x1915, 0x7777)]%Z.
Proof.
  rewrite enter_bootloader_trace, lookups_app.
  rewrite (jumped_lookups _ _ (jump_jumped 0x0102 s)).
  rewrite (jumped_lookups _ _ (jump_jumped 0x7777 _)).
  reflexivity.
Qed.

(** C9, as amended.  Finding a device and sending its entry command does
    not end the search: after the iteration for 0x0102, whatever it did,
    0x7777 is looked up, and a device found there is sent its own entry
    command. *)
Theorem search_goes_on_after_a_device_is_found (s : state W) :
  exists r rest,
    trace_of enter_bootloader s
    = trace_of (jump 0x0102) s ++ EvFind 0x1915 0x7777 r :: rest /\
    forall h,
      r = Done (Some h) ->
      exists r' rest',
        rest = EvCtrl h 0x40 0xFF 0 0 None (Some 2500%Z) r' :: rest'.
Proof.
  rewrite enter_bootloader_trace.
  destruct (jump_jumped 0x7777 (state_of (jump 0x0102) s))
    as [e | | h r rest Hrest].
  - exists (Failed e), []. split; [reflexivity | discriminate].
  - exists (Done None), []. split; [reflexivity | discriminate].
  - exists (Done (Some h)), (entry_event 0x7777 h r :: rest).
    split; [reflexivity|].
    intros h' [= <-]. now exists r, rest.
Qed.

End ApplicationMode.

Lemma entry_command_witness :
  (exists r rest',
      tl (trace_of (jump 0x0102) (initial Sim.both_attached))
      = EvWrite (Handle 0 1) 0x01 [0xFF%Z] (Some 2500%Z) r :: rest' /\
      Forall (fun e => is_command e = false) rest') /\
  (exists r rest',
      tl (trace_of (jump 0x7777) (initial Sim.both_attached))
      = EvCtrl (Handle 0 2) 0x40 0xFF 0 0 None (Some 2500%Z) r :: rest' /\
      Forall (fun e => is_command e = false) rest').
Proof.
  split.
  - apply (proj1 entry_command_by_product_id (initial Sim.both_attached)).
    reflexivity.
  - apply (proj2 entry_command_by_product_id (initial Sim.both_attached)).
    reflexivity.
Defined.

(** C9, as stated, fails with both application firmwares attached: the
    entry command to the first is followed by the lookup of the second and
    by the entry command to it. *)
Lemma search_does_not_stop_when_found :
  ~ search_stops_when_found
      (trace_of enter_bootloader (initial Sim.both_attached)).
Proof.
  intros Hstop.
  specialize
    (Hstop [EvFind 0x1915 0x0102 (Done (Some (Handle 0 1)))]
           (EvWrite (Handle 0 1) 0x01 [0xFF%Z] (Some 2500%Z) (Done tt))
           [EvDispose (Handle 0 1) (Done tt); EvReset (Handle 0 1) (Done tt);
            EvFind 0x1915 0x7777 (Done (Some (Handle 1 2)));
            EvCtrl (Handle 1 2) 0x40 0xFF 0 0 None (Some 2500%Z) (Done tt);
            EvDispose (Handle 1 2) (Done tt); EvReset (Handle 1 2) (Done tt)]
           eq_refl eq_refl).
  inversion Hstop as [|? ? _ H1]; subst.
  inversion H1 as [|? ? _ H2]; subst.
  inversion H2 as [|? ? [Hfind _] _]; subst.
  discriminate Hfind.
Qed.

Section Bootloader.

Context {W : Type} {T : Transport W}.

Variables (h : handle) (data : bytes).

(** C2.  When block [k] is the first whose read-back differs from
    [data[k*64 : k*64+64]], the run ends with "Verification failed on page
    k/8, block k mod 8", and the [[0x03, n]] requests it has made are those
    for the blocks 0 to [k]: none has an index beyond [k]. *)
Theorem first_bad_block_is_reported (s : state W) (k : nat) :
  first_mismatch data (trace_of (flash h data) s) = Some k ->
  result_of (flash h data) s = Raise (VerificationFailed (k / 8) (k mod 8)) /\
  verify_indices (trace_of (flash h data) s) = map Z.of_nat (seq 0 (k + 1)) /\
  Forall (fun n => (n <= Z.of_nat k)%Z)
    (verify_indices (trace_of (flash h data) s)).
Proof.
  intros Hk. pose proof (flash_verified h data s) as Hv.
  destruct (result_of (flash h data) s) as [u|[x| | |page block]|];
    simpl in Hv; try contradiction.
  - destruct Hv as [_ Hm]. specialize (Hm []).
    rewrite app_nil_r in Hm. simpl in Hm. congruence.
  - destruct Hv as [_ Hm]. congruence.
  - destruct Hv as (Hb & _ & Hi & Hm).
    rewrite Hm in Hk. injection Hk as <-.
    rewrite Nat.sub_0_r in Hi.
    assert (Hdiv : (page * 8 + block) / 8 = page).
    { rewrite Nat.div_add_l by lia. rewrite Nat.div_small by lia. lia. }
    assert (Hmod : (page * 8 + block) mod 8 = block).
    { rewrite Nat.add_comm, Nat.Div0.mod_add. now apply Nat.mod_small. }
    rewrite Hdiv, Hmod. split; [reflexivity|]. split; [exact Hi|].
    rewrite Hi. apply Forall_forall. intros n Hn.
    apply in_map_iff in Hn. destruct Hn as (i & <- & Hin).
    apply in_seq in Hin. lia.
Qed.

(** C3.  When every transfer of the two phases is answered and every
    block reads back as [data[n*64 : n*64+64]], the run ends without an
    exception. *)
Theorem faithful_device_gives_success (s : state W) :
  Forall (fun e => failure e = None) (trace_of (flash h data) s) ->
  first_mismatch data (trace_of (flash h data) s) = None ->
  result_of (flash h data) s = Ok tt.
Proof.
  intros Hok Hnone.
  pose proof (flash_verified h data s) as Hv.
  pose proof (flash_ended h data s) as He.
  destruct (result_of (flash h data) s) as [[]|[x| | |page block]|];
    simpl in Hv, He; try contradiction.
  - reflexivity.
  - destruct He as (pre & e & Htr & _ & Hx). rewrite Htr in Hok.
    apply Forall_app in Hok. destruct Hok as [_ Hok].
    inversion Hok; congruence.
  - destruct Hv as (_ & _ & _ & Hm). congruence.
Qed.

(** C4.  The block indices of the [[0x03, n]] requests of the verify loop
    are 0, 1, 2, ... in this order, without a restart at a page boundary;
    there are at most [page_count * 8] of them, and exactly that many when
    the loop runs to its end. *)
Theorem verify_indices_count_up (s : state W) :
  exists m,
    m <= page_count data * 8 /\
    verify_indices (trace_of (verify_pages h data) s)
    = map Z.of_nat (seq 0 m) /\
    forall n, result_of (verify_pages h data) s = Ok n ->
              m = page_count data * 8.
Proof.
  pose proof (verify_pages_verified h data s) as Hv.
  destruct (result_of (verify_pages h data) s) as [n|[x| | |page block]|];
    simpl in Hv; try contradiction.
  - destruct Hv as [Hi _]. rewrite Nat.sub_0_r in Hi.
    exists (page_count data * 8). now repeat split.
  - destruct Hv as [(m & Hm & Hi) _].
    exists m. repeat split; [lia | exact Hi | discriminate].
  - destruct Hv as (_ & Hrange & Hi & _). rewrite Nat.sub_0_r in Hi.
    exists (page * 8 + block + 1).
    repeat split; [lia | exact Hi | discriminate].
Qed.

(** C5.  The claim is that every transfer of the two phases is given the
    2500 ms timeout.  The write of [[0x02, page]] on line 107 is given no
    timeout, unlike the seven other transfers of the two loops: the first
    transfer of the write phase of any image of a page or more is such a
    write. *)
Theorem page_header_write_has_no_timeout (s : state W) :
  0 < page_count data ->
  exists r rest,
    trace_of (flash h data) s = EvWrite h 0x01 [0x02; 0]%Z None r :: rest /\
    transfer_timeout (EvWrite h 0x01 [0x02; 0]%Z None r)
    <> Some (Some usb_timeout).
Proof.
  intros Hpages. unfold flash, write_pages, range.
  destruct (page_count data) as [|n]; [lia|]. cbn [seq for_each].
  destruct (trace_of_bind_prefix (write_page h data 0 ;;
                                  for_each (seq 1 n) (write_page h data))
              (fun _ => verify_pages h data ;; ret tt) s) as [r1 ->].
  destruct (trace_of_bind_prefix (write_page h data 0)
              (fun _ => for_each (seq 1 n) (write_page h data)) s) as [r2 ->].
  unfold write_page at 1.
  destruct (trace_of_bind_prefix (write h 1 [2; Z.of_nat 0]%Z None)
              (fun _ => read h 129 64 (Some usb_timeout) ;;
                        for_each (range 8) (write_block h data 0)) s)
    as [r3 ->].
  unfold write at 1. rewrite call_trace. simpl.
  eexists _, _. split; [reflexivity | discriminate].
Qed.

(** C6.  When a transfer of the write loop fails, its exception ends the
    run: nothing is sent after it, and the trace holds no [[0x06, 0]] and
    no [[0x03, n]]. *)
Theorem write_failure_ends_the_run (s : state W) (e : event) (x : usb_exn) :
  In e (trace_of (write_pages h data) s) ->
  failure e = Some x ->
  result_of (flash h data) s = Raise (TransportError x) /\
  (exists pre, trace_of (flash h data) s = pre ++ [e]) /\
  Forall (fun e' => is_verify_command e' = false) (trace_of (flash h data) s).
Proof.
  intros Hin Hx.
  destruct (ended_by_failure _ _ e x (write_pages_ended h data s) Hin Hx)
    as [Hr [pre Hpre]].
  unfold flash. rewrite result_of_bind, trace_of_bind, Hr.
  split; [reflexivity|]. split; [now exists pre|].
  apply write_pages_no_verify_command.
Qed.

End Bootloader.

(** A dongle whose block 11 reads back wrong, on an image of two pages. *)
Lemma first_bad_block_witness :
  first_mismatch (pad (Sim.image 1000))
    (trace_of (flash (Handle 0 0) (pad (Sim.image 1000)))
       (initial (Sim.bad_block 11)))
  = Some 11 /\
  result_of (flash (Handle 0 0) (pad (Sim.image 1000)))
    (initial (Sim.bad_block 11))
  = Raise (VerificationFailed 1 3).
Proof.
  assert (Hk : first_mismatch (pad (Sim.image 1000))
                 (trace_of (flash (Handle 0 0) (pad (Sim.image 1000)))
                    (initial (Sim.bad_block 11)))
               = Some 11) by (vm_compute; reflexivity).
  split; [exact Hk|].
  exact (proj1 (first_bad_block_is_reported (Handle 0 0)
                  (pad (Sim.image 1000)) (initial (Sim.bad_block 11)) 11 Hk)).
Defined.

(** A dongle that keeps what it is sent, on an image of one page. *)
Lemma faithful_device_witness :
  result_of (flash (Handle 0 0) (pad (Sim.image 100))) (initial Sim.blank)
  = Ok tt.
Proof.
  apply faithful_device_gives_success.
  - vm_compute. repeat constructor.
  - vm_compute. reflexivity.
Defined.

Lemma page_header_write_witness :
  exists r rest,
    trace_of (flash (Handle 0 0) (pad (Sim.image 100))) (initial Sim.blank)
    = EvWrite (Handle 0 0) 0x01 [0x02; 0]%Z None r :: rest /\
    transfer_timeout (EvWrite (Handle 0 0) 0x01 [0x02; 0]%Z None r)
    <> Some (Some usb_timeout).
Proof.
  apply page_header_write_has_no_timeout.
  vm_compute. constructor.
Defined.

(** A dongle whose link dies after seven transfers: the read that follows
    the third block of the first page times out. *)
Lemma write_failure_witness :
  result_of (flash (Handle 0 0) (pad (Sim.image 100))) (initial (Sim.dying 7))
  = Raise (TransportError USBTimeoutError) /\
  Forall (fun e' => is_verify_command e' = false)
    (trace_of (flash (Handle 0 0) (pad (Sim.image 100)))
       (initial (Sim.dying 7))).
Proof.
  assert (Hin : In (EvRead (Handle 0 0) 0x81 64 (Some 2500%Z)
                      (Failed USBTimeoutError))
                  (trace_of (write_pages (Handle 0 0) (pad (Sim.image 100)))
                     (initial (Sim.dying 7)))).
  { vm_compute. do 7 right. now left. }
  destruct (write_failure_ends_the_run (Handle 0 0) (pad (Sim.image 100))
              (initial (Sim.dying 7)) _ USBTimeoutError Hin eq_refl)
    as (Hr & _ & Hall).
  split; assumption.
Defined.

Section WholeScript.

Context {W : Type} {T : Transport W}.

(** C10.  Whenever a lookup of 0x1915:0x0101 finds a device, the next
    call of the script is [set_configuration] on the object the lookup
    answered.  Nothing was called on that object before, so no transfer
    on it comes before its [set_configuration]; and it is not configured
    a second time. *)
Theorem bootloader_is_configured_once (fuel : nat) (firmware : bytes) (w : W)
  (pre post : trace) (h : handle) :
  trace_of (main fuel firmware) (initial w)
  = pre ++ EvFind 0x1915 0x0101 (Done (Some h)) :: post ->
  exists r post',
    post = EvSetConfiguration h r :: post' /\
    Forall (fun e => subject e <> Some h) pre /\
    Forall (fun e => forall r', e <> EvSetConfiguration h r') post'.
Proof.
  intros Htr.
  destruct (main_accepted fuel firmware (initial w)) as (m & Hsteps & Hend).
  { intros h' Hh'. discriminate. }
  eapply steps_bootloader_found; try eassumption.
  intros h' Hh'. discriminate.
Qed.

End WholeScript.

(** Both application firmwares attached, and a bootloader that shows up
    at the third lookup: ten calls come before that lookup. *)
Lemma bootloader_is_configured_witness :
  exists r post',
    skipn 11
      (trace_of (main 20 (Sim.image 100)) (initial Sim.both_attached))
    = EvSetConfiguration (Handle 2 0) r :: post' /\
    Forall (fun e => subject e <> Some (Handle 2 0))
      (firstn 10
         (trace_of (main 20 (Sim.image 100)) (initial Sim.both_attached))) /\
    Forall (fun e => forall r', e <> EvSetConfiguration (Handle 2 0) r') post'.
Proof.
  apply (bootloader_is_configured_once 20 (Sim.image 100) Sim.both_attached).
  vm_compute. reflexivity.
Defined.

(** * More of the script *)

(** ** The image loader *)

(** X1.  The padded image is made of whole pages of 512 bytes; it starts
    with the image as it was, and what follows is between 1 and 512 zero
    bytes. *)
Theorem pad_makes_whole_pages (data : bytes) :
  length (pad data) mod 512 = 0 /\
  firstn (length data) (pad data) = data /\
  Forall (fun b => b = x00) (skipn (length data) (pad data)) /\
  1 <= length (pad data) - length data <= 512.
Proof.
  split; [apply pad_multiple|]. split; [apply pad_prefix|].
  split; [apply pad_suffix_zero|].
  rewrite pad_length.
  pose proof (Nat.mod_upper_bound (length data) 512 ltac:(lia)). lia.
Qed.


(** ** The search for an application firmware *)

Section ApplicationSearch.

Context {W : Type} {T : Transport W}.


(** X4.  Once a device is found, its entry command comes next.  When the
    command raises, the device is neither disposed of nor reset; when it
    does not, [dispose_resources] is called, and [reset] is called after
    it unless [dispose_resources] raised.  Nothing else is called in the
    iteration. *)
Theorem release_follows_the_entry_command (s : state W) (product_id : Z)
  (h : handle) (rest : trace) :
  trace_of (jump product_id) s
  = EvFind 0x1915 product_id (Done (Some h)) :: rest ->
  exists c rest',
    rest = entry_event product_id h c :: rest' /\
    match c with
    | Failed _ => rest' = []
    | Done _ =>
        (exists x, rest' = [EvDispose h (Failed x)]) \/
        (exists a r, rest' = [EvDispose h (Done a); EvReset h r])
    end.
Proof.
  intros Htr. pose proof (jump_steps product_id s) as Hstep.
  rewrite Htr in Hstep.
  inversion Hstep as [ | |h' c rest' Hrel]; subst.
  exists c, rest'. split; [reflexivity|].
  destruct Hrel as [x|a x|a a' r].
  - reflexivity.
  - left. now exists x.
  - right. now exists a', r.
Qed.

End ApplicationSearch.

(** An application firmware whose reset raises: the exception is
    swallowed after the disposal and the reset. *)
Lemma release_witness :
  exists c rest',
    tl (trace_of (jump 0x0102) (initial Flaky.stuck))
    = entry_event 0x0102 (Handle 0 1) c :: rest' /\
    match c with
    | Failed _ => rest' = []
    | Done _ =>
        (exists x, rest' = [EvDispose (Handle 0 1) (Failed x)]) \/
        (exists a r,
            rest' = [EvDispose (Handle 0 1) (Done a); EvReset (Handle 0 1) r])
    end.
Proof.
  apply (release_follows_the_entry_command (initial Flaky.stuck)).
  reflexivity.
Defined.

(** ** The polling loop *)

Section BootloaderSearch.

Context {W : Type} {T : Transport W}.

(** X5.  The polling loop calls nothing but lookups of 0x1915:0x0101 and
    [set_configuration]: no transfer, no disposal and no reset is made
    while the bootloader is looked for. *)
Theorem polling_makes_no_transfer (fuel : nat) (s : state W) :
  Forall (fun e => is_polling e = true) (trace_of (find_bootloader fuel) s).
Proof.
  eapply polling_only_polls. apply find_bootloader_polling.
Qed.

(** X6.  The polling loop goes on after an [AttributeError]; any other
    exception of a lookup or of [set_configuration] ends the script, and
    the call that raised it is the last one. *)
Theorem polling_ends_on_other_exceptions (fuel : nat) (s : state W)
  (e : exn) :
  result_of (find_bootloader fuel) s = Raise e ->
  exists x,
    e = TransportError x /\ x <> AttributeError /\
    exists pre ev,
      trace_of (find_bootloader fuel) s = pre ++ [ev] /\ failure ev = Some x.
Proof.
  intros Hr. pose proof (find_bootloader_polling fuel s) as Hrun.
  rewrite Hr in Hrun. eapply polling_fatal_last. eassumption.
Qed.

End BootloaderSearch.

(** A backend that breaks down at the first lookup of the bootloader. *)
Lemma polling_ends_witness :
  exists x,
    TransportError USBError = TransportError x /\ x <> AttributeError /\
    exists pre ev,
      trace_of (find_bootloader 20) (initial Flaky.broken) = pre ++ [ev] /\
      failure ev = Some x.
Proof.
  apply (polling_ends_on_other_exceptions 20 (initial Flaky.broken)).
  reflexivity.
Defined.

(** ** From the searches to the two phases *)

Section AfterTheSearches.

Context {W : Type} {T : Transport W}.

(** X7.  When the polling loop ends, by a [break] or by the clock, what
    the script does next is decided by the last lookup that did not
    raise, of either search.  When there is none, it raises [NameError];
    when that lookup found nothing, it raises "No compatible device
    found" without any further call; and when it found a device, the
    script runs the two phases on that device, with the padded image. *)
Theorem script_acts_on_the_last_answer (fuel : nat) (firmware : bytes)
  (s : state W) :
  searches_result fuel s = Ok tt ->
  match assigned (searches_trace fuel s) (dongle s) with
  | Unbound =>
      result_of (main fuel firmware) s = Raise NameError /\
      trace_of (main fuel firmware) s = searches_trace fuel s
  | Bound None =>
      result_of (main fuel firmware) s = Raise NoCompatibleDevice /\
      trace_of (main fuel firmware) s = searches_trace fuel s
  | Bound (Some h) =>
      result_of (main fuel firmware) s
      = result_of (flash h (pad firmware)) (searches_state fuel s) /\
      trace_of (main fuel firmware) s
      = searches_trace fuel s
        ++ trace_of (flash h (pad firmware)) (searches_state fuel s)
  end.
Proof.
  intros Hres. pose proof (main_cases fuel firmware s) as Hcases.
  rewrite Hres in Hcases. rewrite <- searches_assigned. exact Hcases.
Qed.

(** X8.  When every lookup of the run answers [None], the script raises
    "No compatible device found", and its calls are lookups only: nothing
    is sent to any device. *)
Theorem no_device_no_transfer (fuel : nat) (firmware : bytes) (w : W) :
  Forall finds_nothing (trace_of (main fuel firmware) (initial w)) ->
  result_of (main fuel firmware) (initial w) <> OutOfFuel ->
  result_of (main fuel firmware) (initial w) = Raise NoCompatibleDevice /\
  Forall (fun e => is_find e = true)
    (trace_of (main fuel firmware) (initial w)).
Proof.
  intros Hall Hfuel.
  destruct (main_trace_prefix fuel firmware (initial w)) as [rest Hpre].
  assert (Hsearch : Forall finds_nothing (searches_trace fuel (initial w))).
  { rewrite Hpre in Hall. now apply Forall_app in Hall. }
  unfold searches_trace in Hsearch. apply Forall_app in Hsearch.
  destruct Hsearch as [Henter Hpoll].
  destruct (enter_finds_nothing _ Henter) as [Hv1 Hf1].
  destruct (polling_finds_nothing _ _ _ _
              (find_bootloader_polling fuel _) Hpoll) as (Hr & Hv2 & Hf2).
  specialize (Hv2 Hv1).
  pose proof (main_cases fuel firmware (initial w)) as Hcases.
  unfold searches_result, searches_state in Hcases.
  destruct Hr as [Hr|Hr]; rewrite Hr in Hcases.
  - rewrite Hv2 in Hcases. destruct Hcases as [Hres Htr].
    split; [exact Hres|]. rewrite Htr. apply Forall_app. now split.
  - destruct Hcases as [Hres _]. contradiction.
Qed.


End AfterTheSearches.

(** An application firmware that is found, and lookups of the bootloader
    that raise [AttributeError] until the clock ends the loop. *)
Lemma last_answer_witness :
  result_of (main 20 (Sim.image 100)) (initial Flaky.stuck)
  = result_of (flash (Handle 0 1) (pad (Sim.image 100)))
      (searches_state 20 (initial Flaky.stuck)) /\
  trace_of (main 20 (Sim.image 100)) (initial Flaky.stuck)
  = searches_trace 20 (initial Flaky.stuck)
    ++ trace_of (flash (Handle 0 1) (pad (Sim.image 100)))
         (searches_state 20 (initial Flaky.stuck)).
Proof.
  exact (script_acts_on_the_last_answer 20 (Sim.image 100)
           (initial Flaky.stuck) eq_refl).
Defined.

(** No dongle at all. *)
Lemma no_device_witness :
  result_of (main 20 (Sim.image 100)) (initial Sim.absent)
  = Raise NoCompatibleDevice /\
  Forall (fun e => is_find e = true)
    (trace_of (main 20 (Sim.image 100)) (initial Sim.absent)).
Proof.
  apply no_device_no_transfer.
  - vm_compute. repeat constructor.
  - vm_compute. discriminate.
Defined.


(** ** The two phases on the bootloader *)

Section TwoPhases.

Context {W : Type} {T : Transport W}.

Variables (h : handle) (data : bytes).

(** X10.  The blocks of 64 bytes the script sends are, one after the
    other, the beginning of the image, however the run ends: no block is
    skipped, sent twice or sent out of order.  When the write loop runs to
    its end, they are the whole image, page after page. *)
Theorem image_is_sent_in_order (s : state W) :
  prefix_of (sent_data (trace_of (flash h data) s))
    (Bytes.to_ints (firstn (page_count data * 512) data)) /\
  (result_of (write_pages h data) s = Ok tt ->
   sent_data (trace_of (flash h data) s)
   = Bytes.to_ints (firstn (page_count data * 512) data)).
Proof. rewrite flash_sent. apply write_pages_sent. Qed.

(** X11.  The pages announced by the [[0x02, page]] writes are 0, 1, 2,
    ... in this order, each once, up to the page at which the write loop
    stops; all the pages of the image when it runs to its end. *)
Theorem pages_are_announced_in_order (s : state W) :
  prefix_of (page_headers (trace_of (write_pages h data) s))
    (map Z.of_nat (range (page_count data))) /\
  (result_of (write_pages h data) s = Ok tt ->
   page_headers (trace_of (write_pages h data) s)
   = map Z.of_nat (range (page_count data))).
Proof.
  replace (map Z.of_nat (range (page_count data)))
    with (flat_map (fun page => [Z.of_nat page]) (range (page_count data))).
  2:{ induction (range (page_count data)) as [|p l IH]; [reflexivity|].
      simpl. now rewrite IH. }
  unfold page_headers, write_pages.
  apply (for_each_emits page_header (fun page => [Z.of_nat page])).
  intros page s' Hpage. apply in_seq in Hpage.
  fold (page_headers (trace_of (write_page h data page) s')).
  rewrite write_page_headers by lia.
  split; [apply prefix_of_refl | reflexivity].
Qed.

(** X12.  The two phases are half-duplex on one device: every call is a
    write on endpoint 0x01 or a read of 64 bytes on endpoint 0x81 of [h];
    every write that is answered is followed by a read, before any other
    write; and a write or a read that raises is the last call. *)
Theorem transfers_alternate (s : state W) :
  half_duplex h (trace_of (flash h data) s).
Proof. eapply duplex_failed. apply flash_duplex. Qed.

(** X13.  When the two phases end without exception, every call was
    answered, the blocks sent are the whole image, and every block of the
    image, from 0 to [page_count * 8 - 1], was asked for once, in order,
    and read back equal to the image. *)
Theorem success_means_written_and_read_back (s : state W) :
  result_of (flash h data) s = Ok tt ->
  Forall (fun e => failure e = None) (trace_of (flash h data) s) /\
  sent_data (trace_of (flash h data) s)
  = Bytes.to_ints (firstn (page_count data * 512) data) /\
  read_backs (trace_of (flash h data) s)
  = map (fun k => (Z.of_nat k, Bytes.slice data (k * 64) (k * 64 + 64)))
      (seq 0 (page_count data * 8)) /\
  flat_map snd (read_backs (trace_of (flash h data) s))
  = firstn (page_count data * 512) data.
Proof.
  intros Hok.
  pose proof (flash_ended h data s) as Hend. rewrite Hok in Hend.
  split; [exact Hend|].
  split.
  { rewrite flash_sent. apply write_pages_sent. now apply flash_ok_writes. }
  rewrite (flash_read_backs h data s Hok). split; [reflexivity|].
  rewrite blocks_of_image. f_equal. lia.
Qed.

(** X14.  "Verification failed on page p, block b" is raised only for a
    page and a block of the image, when block [p * 8 + b] is the first
    that read back different from the image, and after every call was
    answered. *)
Theorem verification_failure_is_genuine (s : state W) (page block : nat) :
  result_of (flash h data) s = Raise (VerificationFailed page block) ->
  page < page_count data /\ block < 8 /\
  first_mismatch data (trace_of (flash h data) s) = Some (page * 8 + block) /\
  Forall (fun e => failure e = None) (trace_of (flash h data) s).
Proof.
  intros Hr.
  pose proof (flash_verified h data s) as Hv.
  pose proof (flash_ended h data s) as Hend.
  rewrite Hr in Hv, Hend. simpl in Hv, Hend.
  destruct Hv as (Hb & Hrange & _ & Hm).
  repeat split; try assumption. lia.
Qed.

(** X15.  When the two phases end on an exception of the transport, the
    call that raised it is the last one, in the write loop or in the
    verify loop, and every call before it was answered: no transfer is
    tried again and none is skipped. *)
Theorem transport_error_is_the_last_call (s : state W) (x : usb_exn) :
  result_of (flash h data) s = Raise (TransportError x) ->
  exists pre e,
    trace_of (flash h data) s = pre ++ [e] /\
    Forall (fun e' => failure e' = None) pre /\
    failure e = Some x.
Proof.
  intros Hr. pose proof (flash_ended h data s) as Hend.
  rewrite Hr in Hend. exact Hend.
Qed.


End TwoPhases.

(** A dongle that keeps what it is sent, on an image of one page. *)
Lemma success_witness :
  sent_data
    (trace_of (flash (Handle 0 0) (pad (Sim.image 100))) (initial Sim.blank))
  = Bytes.to_ints
      (firstn (page_count (pad (Sim.image 100)) * 512) (pad (Sim.image 100))) /\
  flat_map snd
    (read_backs
       (trace_of (flash (Handle 0 0) (pad (Sim.image 100)))
          (initial Sim.blank)))
  = firstn (page_count (pad (Sim.image 100)) * 512) (pad (Sim.image 100)).
Proof.
  destruct (success_means_written_and_read_back (Handle 0 0)
              (pad (Sim.image 100)) (initial Sim.blank))
    as (_ & Hsent & _ & Hread).
  - vm_compute. reflexivity.
  - split; assumption.
Defined.

(** A dongle whose block 11 reads back wrong, on an image of two pages. *)
Lemma verification_failure_witness :
  1 < page_count (pad (Sim.image 1000)) /\ 3 < 8 /\
  first_mismatch (pad (Sim.image 1000))
    (trace_of (flash (Handle 0 0) (pad (Sim.image 1000)))
       (initial (Sim.bad_block 11)))
  = Some (1 * 8 + 3).
Proof.
  destruct (verification_failure_is_genuine (Handle 0 0)
              (pad (Sim.image 1000)) (initial (Sim.bad_block 11)) 1 3)
    as (Hp & Hb & Hm & _).
  - vm_compute. reflexivity.
  - repeat split; assumption.
Defined.

(** A dongle whose link dies in the verify loop. *)
Lemma transport_error_witness :
  exists pre e,
    trace_of (flash (Handle 0 0) (pad (Sim.image 100)))
      (initial (Sim.dying 25))
    = pre ++ [e] /\
    Forall (fun e' => failure e' = None) pre /\
    failure e = Some USBTimeoutError.
Proof.
  apply transport_error_is_the_last_call.
  vm_compute. reflexivity.
Defined.

(** ** The whole script *)

Section Completed.

Context {W : Type} {T : Transport W}.

(** X17.  When the script ends without exception, the blocks it has sent
    are the padded firmware, and so are the blocks it has read back. *)
Theorem completed_script_has_flashed_the_firmware (fuel : nat)
  (firmware : bytes) (s : state W) :
  result_of (main fuel firmware) s = Ok tt ->
  sent_data (trace_of (main fuel firmware) s) = Bytes.to_ints (pad firmware) /\
  flat_map snd (read_backs (trace_of (main fuel firmware) s)) = pad firmware.
Proof.
  intros Hok. pose proof (main_cases fuel firmware s) as Hcases.
  pose proof (searches_searching fuel s) as Hsearch.
  destruct (searches_result fuel s) as [u| |];
    [destruct (dongle (searches_state fuel s)) as [|[h|]]|..];
    destruct Hcases as [Hr Htr]; rewrite Hr in Hok; try discriminate.
  assert (Hsent :
            sent_data
              (trace_of (flash h (pad firmware)) (searches_state fuel s))
            = Bytes.to_ints
                (firstn (page_count (pad firmware) * 512) (pad firmware))).
  { rewrite flash_sent. apply write_pages_sent. now apply flash_ok_writes. }
  assert (Hread :
            flat_map snd
              (read_backs
                 (trace_of (flash h (pad firmware)) (searches_state fuel s)))
            = firstn (page_count (pad firmware) * 512) (pad firmware)).
  { rewrite (flash_read_backs h (pad firmware) _ Hok), blocks_of_image.
    f_equal. lia. }
  assert (Hall : firstn (page_count (pad firmware) * 512) (pad firmware)
                 = pad firmware).
  { rewrite pad_page_count, <- pad_whole_pages. apply firstn_all. }
  rewrite Hall in Hsent, Hread. rewrite Htr. split.
  - unfold sent_data in *. rewrite flat_map_app.
    rewrite emits_nothing; [exact Hsent|].
    eapply Forall_impl; [|exact Hsearch]. now intros e [He _].
  - rewrite read_backs_skip_all; [exact Hread|].
    eapply Forall_impl; [|exact Hsearch]. now intros e [_ He].
Qed.

End Completed.

(** Both application firmwares attached, a bootloader that shows up at
    the third lookup and keeps what it is sent, on an image of two
    pages. *)
Lemma completed_script_witness :
  sent_data (trace_of (main 20 (Sim.image 1000)) (initial Sim.both_attached))
  = Bytes.to_ints (pad (Sim.image 1000)) /\
  flat_map snd
    (read_backs
       (trace_of (main 20 (Sim.image 1000)) (initial Sim.both_attached)))
  = pad (Sim.image 1000).
Proof.
  apply completed_script_has_flashed_the_firmware.
  vm_compute. reflexivity.
Defined.
